(** * portal-odeus: the text-generation proxy handler

    A shallow embedding of [api/generate.js] (the retry + fallback serverless
    handler) and of the older single-call variant of the same handler,
    together with the properties their specification states about them.

    The JavaScript is asynchronous but strictly sequential: every promise is
    awaited before the next statement runs.  It is therefore modelled in a
    small monad that threads a chronological trace of observable events
    (outbound fetches with their results, back-off sleeps, responses written
    to the client) and that can throw.  The upstream provider is an arbitrary
    function of the history so far and of the call being made. *)

From Stdlib Require Import ZArith String Ascii List Bool Lia DecimalString.
Import ListNotations.
Open Scope string_scope.
Open Scope Z_scope.

(** ** JavaScript values *)

(** JSON numbers are IEEE doubles.  The handler never computes with them: it
    only tests their truthiness and prints them, so they are kept abstract
    behind these two operations. *)
Class JsNumber (num : Type) : Type := {
  num_truthy : num -> bool;   (* ToBoolean: false exactly for +0 and -0 *)
  num_show : num -> string    (* Number::toString, also used by JSON.stringify *)
}.

(** Decimal rendering of an integer, as [String(n)] does for a JS integer of
    moderate size (HTTP statuses, small counters). *)
Definition show_Z (z : Z) : string := NilZero.string_of_int (Z.to_int z).

(** Integral JSON numbers, the instance used to run the model. *)
#[export] Instance JsNumber_Z : JsNumber Z := {
  num_truthy z := negb (z =? 0);
  num_show := show_Z
}.

(** A value produced by [JSON.parse]; object members keep insertion order. *)
#[warnings="-register-all"]
Inductive JSON (num : Type) : Type :=
| JNull
| JBool (b : bool)
| JNum (n : num)
| JStr (s : string)
| JArr (l : list (JSON num))
| JObj (kvs : list (string * JSON num)).

Arguments JNull {num}.
Arguments JBool {num} b.
Arguments JNum {num} n.
Arguments JStr {num} s.
Arguments JArr {num} l.
Arguments JObj {num} kvs.

(** The double-quote and backslash characters, and a hexadecimal digit. *)
Definition dquote : string := String (ascii_of_nat 34) EmptyString.
Definition backslash : string := String (ascii_of_nat 92) EmptyString.

Definition hex_digit (n : nat) : string :=
  String (ascii_of_nat (if Nat.ltb n 10 then 48 + n else 87 + n)) EmptyString.

(** QuoteJSONString, one code unit at a time. *)
Definition escape_char (c : ascii) : string :=
  let n := nat_of_ascii c in
  if Nat.eqb n 34 then backslash ++ dquote
  else if Nat.eqb n 92 then backslash ++ backslash
  else if Nat.eqb n 8 then backslash ++ "b"
  else if Nat.eqb n 12 then backslash ++ "f"
  else if Nat.eqb n 10 then backslash ++ "n"
  else if Nat.eqb n 13 then backslash ++ "r"
  else if Nat.eqb n 9 then backslash ++ "t"
  else if Nat.ltb n 32 then
    backslash ++ "u00" ++ hex_digit (Nat.div n 16) ++ hex_digit (Nat.modulo n 16)
  else String c EmptyString.

Fixpoint escape_string (s : string) : string :=
  match s with
  | EmptyString => EmptyString
  | String c rest => escape_char c ++ escape_string rest
  end.

Definition quote_string (s : string) : string :=
  dquote ++ escape_string s ++ dquote.

Section JsValues.
Context {num : Type} {NUM : JsNumber num}.

(** A JavaScript value as the handler meets it: [None] is [undefined]. *)
Definition JsVal : Type := option (JSON num).

(** [JSON.stringify(v)] for a parsed JSON value. *)
Fixpoint JSON_stringify (v : JSON num) : string :=
  match v with
  | JNull => "null"
  | JBool true => "true"
  | JBool false => "false"
  | JNum n => num_show n
  | JStr s => quote_string s
  | JArr l =>
      "[" ++
      (fix elems (l : list (JSON num)) : string :=
         match l with
         | [] => EmptyString
         | x :: r =>
             JSON_stringify x ++
             match r with [] => EmptyString | _ => "," ++ elems r end
         end) l ++ "]"
  | JObj kvs =>
      "{" ++
      (fix members (kvs : list (string * JSON num)) : string :=
         match kvs with
         | [] => EmptyString
         | (k, x) :: r =>
             quote_string k ++ ":" ++ JSON_stringify x ++
             match r with [] => EmptyString | _ => "," ++ members r end
         end) kvs ++ "}"
  end.

Fixpoint assoc (k : string) (kvs : list (string * JSON num)) : JsVal :=
  match kvs with
  | [] => None
  | (k', x) :: r => if (k =? k')%string then Some x else assoc k r
  end.

(** [String(v)], as a template literal applies it; [None] when the
    conversion throws its [TypeError].  An array joins its elements with
    commas, printing [null] elements as nothing and converting the others
    in turn.  A parsed object has no callable member of its own, so it
    prints as [[object Object]] through the inherited [toString] when it has
    no member named [toString]; when it has one, that member shadows the
    inherited method and is not callable, [valueOf] has nothing primitive to
    offer either, and the conversion throws. *)
Fixpoint ToString (v : JSON num) : option string :=
  match v with
  | JNull => Some "null"
  | JBool true => Some "true"
  | JBool false => Some "false"
  | JNum n => Some (num_show n)
  | JStr s => Some s
  | JArr l =>
      (fix join (l : list (JSON num)) : option string :=
         match l with
         | [] => Some EmptyString
         | x :: r =>
             match match x with
                   | JNull => Some EmptyString
                   | _ => ToString x
                   end with
             | None => None
             | Some sx =>
                 match r with
                 | [] => Some sx
                 | _ =>
                     match join r with
                     | None => None
                     | Some sr => Some (sx ++ "," ++ sr)
                     end
                 end
             end
         end) l
  | JObj kvs =>
      match assoc "toString" kvs with
      | Some _ => None
      | None => Some "[object Object]"
      end
  end.

Definition ToString_val (v : JsVal) : option string :=
  match v with
  | None => Some "undefined"
  | Some j => ToString j
  end.

(** ToBoolean. *)
Definition ToBoolean (v : JsVal) : bool :=
  match v with
  | None => false
  | Some JNull => false
  | Some (JBool b) => b
  | Some (JNum n) => num_truthy n
  | Some (JStr s) => negb (s =? EmptyString)%string
  | Some (JArr _) => true
  | Some (JObj _) => true
  end.

(** [a || b]. *)
Definition js_or (a b : JsVal) : JsVal := if ToBoolean a then a else b.

(** [typeof v === "string"]. *)
Definition is_string (v : JsVal) : bool :=
  match v with
  | Some (JStr _) => true
  | _ => false
  end.

(** [v?.k] for the keys the handler reads ([prompt], [error], [message]):
    [undefined] on [undefined] and [null], the member on an object, and
    [undefined] on primitives and arrays, which have no such property. *)
Definition opt_get (v : JsVal) (k : string) : JsVal :=
  match v with
  | Some (JObj kvs) => assoc k kvs
  | _ => None
  end.

(** ** Thrown values *)

(** An [Error] object with the two extra fields [fetchWithRetry] sets. *)
Record Exn : Type := mkExn {
  exn_name : string;
  exn_message : string;
  exn_status : option Z;
  exn_data : JsVal
}.

(** [new Error(msg)]. *)
Definition new_Error (msg : string) : Exn :=
  mkExn "Error" msg None None.

(** The [TypeError] of a value that cannot be converted to a string, with
    the message Node gives it. *)
Definition type_error : Exn :=
  mkExn "TypeError" "Cannot convert object to primitive value" None None.

(** [String(e)] for an error: Error.prototype.toString. *)
Definition String_exn (e : Exn) : string :=
  if (exn_name e =? EmptyString)%string then exn_message e
  else if (exn_message e =? EmptyString)%string then exn_name e
  else exn_name e ++ ": " ++ exn_message e.

End JsValues.

Arguments JsVal num : clear implicits.
Arguments Exn num : clear implicits.

(** ** Events, the upstream provider and the effect monad *)

(** The second argument of [fetch]. *)
Record FetchOptions : Type := mkOptions {
  opt_method : string;
  opt_headers : list (string * string);
  opt_body : string
}.

Section Effects.
Context {num : Type} {NUM : JsNumber num}.

(** What [res.json()] will do with the body of an upstream response:
    resolve to the parsed value, or reject with the parser's error. *)
Inductive Body : Type :=
| BodyJson (d : JSON num)
| BodyInvalid (e : Exn num).

(** The [Response] object [fetch] resolves to. *)
Record Response : Type := mkResponse {
  res_status : Z;
  res_body : Body
}.

(** [fetch] resolves to a response or rejects (transport failure). *)
Inductive FetchResult : Type :=
| Resolved (r : Response)
| Rejected (e : Exn num).

Inductive Event : Type :=
| EvFetch (url : string) (options : FetchOptions) (result : FetchResult)
| EvSleep (ms : Z)
| EvRespond (status : Z) (body : JSON num).

(** The upstream provider: any function of the events so far and of the
    call being made. *)
Definition Upstream : Type :=
  list Event -> string -> FetchOptions -> FetchResult.

Inductive Outcome (A : Type) : Type :=
| Returned (a : A)
| Thrown (e : Exn num)
| OutOfFuel.

Definition M (A : Type) : Type :=
  Upstream -> list Event -> Outcome A * list Event.

Definition ret {A : Type} (a : A) : M A :=
  fun _ tr => (Returned A a, tr).

Definition bind {A B : Type} (m : M A) (k : A -> M B) : M B :=
  fun up tr =>
    match m up tr with
    | (Returned _ a, tr') => k a up tr'
    | (Thrown _ e, tr') => (Thrown B e, tr')
    | (OutOfFuel _, tr') => (OutOfFuel B, tr')
    end.

Definition throw {A : Type} (e : Exn num) : M A :=
  fun _ tr => (Thrown A e, tr).

Definition out_of_fuel {A : Type} : M A :=
  fun _ tr => (OutOfFuel A, tr).

(** [try { m } catch (e) { h e }]. *)
Definition try_catch {A : Type} (m : M A) (h : Exn num -> M A) : M A :=
  fun up tr =>
    match m up tr with
    | (Thrown _ e, tr') => h e up tr'
    | r => r
    end.

(** [await fetch(url, options)]. *)
Definition fetch (url : string) (options : FetchOptions) : M Response :=
  fun up tr =>
    let result := up tr url options in
    let tr' := (tr ++ [EvFetch url options result])%list in
    match result with
    | Resolved r => (Returned _ r, tr')
    | Rejected e => (Thrown _ e, tr')
    end.

(** [await sleep(ms)]. *)
Definition sleep (ms : Z) : M unit :=
  fun _ tr => (Returned _ tt, (tr ++ [EvSleep ms])%list).

(** [res.status(code).json(body)] on the client response object. *)
Definition respond (code : Z) (body : JSON num) : M unit :=
  fun _ tr => (Returned _ tt, (tr ++ [EvRespond code body])%list).

(** [res.ok]. *)
Definition res_ok (r : Response) : bool :=
  (200 <=? res_status r) && (res_status r <=? 299).

(** [await res.json()]. *)
Definition res_json (r : Response) : M (JSON num) :=
  match res_body r with
  | BodyJson d => ret d
  | BodyInvalid e => throw e
  end.

End Effects.

Arguments Body num : clear implicits.
Arguments Response num : clear implicits.
Arguments FetchResult num : clear implicits.
Arguments Event num : clear implicits.
Arguments Upstream num : clear implicits.
Arguments Outcome num A : clear implicits.
Arguments M num A : clear implicits.
Arguments Returned {num A} a.
Arguments Thrown {num A} e.
Arguments OutOfFuel {num A}.

Declare Scope js_scope.
Delimit Scope js_scope with js.
Notation "x <- c ;; k" := (bind c (fun x => k))
  (at level 61, c at next level, right associativity) : js_scope.
Notation "c ;; k" := (bind c (fun _ => k))
  (at level 61, right associativity) : js_scope.
Open Scope js_scope.

(** ** [api/generate.js] *)

Definition MODEL_PRIMARY : string := "gemini-3-flash-preview".
Definition MODEL_FALLBACK : string := "gemini-2.0-flash".

(** The inbound request, as far as the handler reads it. *)
Record Request (num : Type) : Type := mkRequest {
  req_method : string;
  req_body : JsVal num
}.
Arguments mkRequest {num} _ _.
Arguments req_method {num} _.
Arguments req_body {num} _.

Section Generate.
Context {num : Type} {NUM : JsNumber num}.

(** [status === 429 || status === 503]. *)
Definition is_transient (status : Z) : bool :=
  (status =? 429) || (status =? 503).

(** [data?.error?.message || data?.error || JSON.stringify(data)]. *)
Definition error_msg (data : JSON num) : JsVal num :=
  js_or (js_or (opt_get (opt_get (Some data) "error") "message")
               (opt_get (Some data) "error"))
        (Some (JStr (JSON_stringify data))).

(** The template literal [`${status}: ${msg}`]: [None] when converting
    [msg] throws. *)
Definition status_msg (status : Z) (msg : JsVal num) : option string :=
  match ToString_val msg with
  | Some text => Some (show_Z status ++ ": " ++ text)
  | None => None
  end.

(** [new Error(`${status}: ${msg}`)], evaluated: the error, or the
    [TypeError] thrown while its message is built. *)
Definition new_status_Error (status : Z) (msg : JsVal num)
    : M num (Exn num) :=
  match status_msg status msg with
  | Some text => ret (mkExn "Error" text None None)
  | None => throw type_error
  end.

(** The body of the [for] loop of [fetchWithRetry], entered at the loop
    test with the current [attempt] and [lastErr].  The attempt counter,
    the budget and the wait are JavaScript integers far below the range
    where doubles stop being exact, so they are integers here.  [fuel]
    bounds the number of turns; [fetchWithRetry] supplies enough of it for
    the whole budget, and the loop is shown below never to run out. *)
Fixpoint fetchWithRetry_loop (fuel : nat) (url : string)
    (options : FetchOptions) (maxAttempts attempt : Z)
    (lastErr : option (Exn num)) : M num (Response num * JSON num) :=
  match fuel with
  | O => out_of_fuel
  | S fuel' =>
      if attempt <=? maxAttempts then
        res <- fetch url options ;;
        data <- try_catch (res_json res) (fun _ => ret (JObj [])) ;;
        if res_ok res then ret (res, data)
        else
          let status := res_status res in
          let msg := error_msg data in
          if is_transient status && (attempt <? maxAttempts) then
            let wait := 1000 * 2 ^ (attempt - 1) in
            sleep wait ;;
            err <- new_status_Error status msg ;;
            let lastErr' :=
              mkExn (exn_name err) (exn_message err) (Some status)
                (exn_data err) in
            fetchWithRetry_loop fuel' url options maxAttempts
              (attempt + 1) (Some lastErr')
          else
            err <- new_status_Error status msg ;;
            throw (mkExn (exn_name err) (exn_message err) (Some status)
                     (Some data))
      else
        throw (match lastErr with
               | Some e => e
               | None => new_Error "Falha desconhecida no retry."
               end)
  end.

Definition fetchWithRetry (url : string) (options : FetchOptions)
    (maxAttempts : Z) : M num (Response num * JSON num) :=
  fetchWithRetry_loop (Z.to_nat maxAttempts + 1) url options maxAttempts
    1 None.

(** The URL template of [callGemini]. *)
Definition gemini_url (model apiKey : string) : string :=
  "https://generativelanguage.googleapis.com/v1beta/models/" ++ model ++
  ":generateContent?key=" ++ apiKey.

(** [{ contents: [{ role: "user", parts: [{ text: prompt }] }] }]; an
    [undefined] member is left out by [JSON.stringify]. *)
Definition gemini_body (prompt : JsVal num) : JSON num :=
  JObj [("contents",
         JArr [JObj [("role", JStr "user");
                     ("parts",
                      JArr [JObj match prompt with
                                 | Some p => [("text", p)]
                                 | None => []
                                 end])]])].

Definition gemini_options (prompt : JsVal num) : FetchOptions :=
  mkOptions "POST" [("Content-Type", "application/json")]
    (JSON_stringify (gemini_body prompt)).

Definition callGemini (apiKey model : string) (prompt : JsVal num)
    : M num (JSON num) :=
  r <- fetchWithRetry (gemini_url model apiKey) (gemini_options prompt) 4 ;;
  ret (snd r).

(** [{ error: text }] and [{ error: { message: text } }]. *)
Definition error_body (text : string) : JSON num :=
  JObj [("error", JStr text)].

Definition error_message_body (text : string) : JSON num :=
  JObj [("error", JObj [("message", JStr text)])].

(** [!prompt || typeof prompt !== "string"]. *)
Definition invalid_prompt (prompt : JsVal num) : bool :=
  negb (ToBoolean prompt) || negb (is_string prompt).

(** [const { prompt } = req.body || {}]. *)
Definition body_prompt (body : JsVal num) : JsVal num :=
  opt_get (js_or body (Some (JObj []))) "prompt".

(** [!apiKey], for [process.env.GEMINI_API_KEY]. *)
Definition missing_key (apiKey : option string) : bool :=
  match apiKey with
  | None => true
  | Some k => (k =? EmptyString)%string
  end.

(** The text that [apiKey] contributes to the URL of the call; the call is
    only reached with a key that is set. *)
Definition key_text (apiKey : option string) : string :=
  match apiKey with
  | Some k => k
  | None => "undefined"
  end.

(** [e?.message || String(e)]. *)
Definition exn_text (e : Exn num) : string :=
  if (exn_message e =? EmptyString)%string then String_exn e
  else exn_message e.

(** [e?.status || 0]. *)
Definition exn_status_or_0 (e : Exn num) : Z :=
  match exn_status e with
  | Some s => s
  | None => 0
  end.

(** The exported handler. *)
Definition handler (req : Request num) (env_key : option string)
    : M num unit :=
  try_catch
    (if negb (req_method req =? "POST")%string then
       respond 405 (error_body "Method not allowed")
     else
       let prompt := body_prompt (req_body req) in
       if invalid_prompt prompt then
         respond 400 (error_body "Missing or invalid prompt")
       else
         let apiKey := env_key in
         if missing_key apiKey then
           respond 500 (error_body "Missing GEMINI_API_KEY env var")
         else
           let key := key_text apiKey in
           try_catch
             (data <- callGemini key MODEL_PRIMARY prompt ;;
              respond 200 data)
             (fun e =>
                let status := exn_status_or_0 e in
                if is_transient status then
                  data <- callGemini key MODEL_FALLBACK prompt ;;
                  respond 200 data
                else throw e))
    (fun e => respond 500 (error_message_body (exn_text e))).

End Generate.

(** ** The single-call variant of the handler *)

Section Simple.
Context {num : Type} {NUM : JsNumber num}.

(** The older [api/generate.js]: one [fetch] of the [gemini-2.0-flash]
    endpoint, no retry, the upstream status passed through.  Its request
    body is the same object literal as in [callGemini]. *)
Definition simple_handler (req : Request num) (env_key : option string)
    : M num unit :=
  try_catch
    (if negb (req_method req =? "POST")%string then
       respond 405 (error_body "Method not allowed")
     else
       let prompt := body_prompt (req_body req) in
       if invalid_prompt prompt then
         respond 400 (error_body "Missing or invalid prompt")
       else
         let apiKey := env_key in
         if missing_key apiKey then
           respond 500 (error_body "Missing GEMINI_API_KEY env var")
         else
           let key := key_text apiKey in
           let url :=
             "https://generativelanguage.googleapis.com/v1beta/models/gemini-2.0-flash:generateContent?key="
             ++ key in
           r <- fetch url
                  (mkOptions "POST" [("Content-Type", "application/json")]
                     (JSON_stringify (gemini_body prompt))) ;;
           data <- res_json r ;;
           respond (res_status r) data)
    (fun e => respond 500 (error_body (String_exn e))).

End Simple.

(** ** The canonical handler under a configuration

    The specification speaks of the retry + fallback handler "configured"
    with an attempt budget and an optional fallback target.  These two
    definitions follow those words: they are [callGemini] and [handler] with
    the budget, the primary model and the fallback model turned into
    parameters; [None] means that no fallback target exists, so a transient
    failure of the primary call goes to the generic error response. *)

Section Configured.
Context {num : Type} {NUM : JsNumber num}.

Definition configured_call (maxAttempts : Z) (apiKey model : string)
    (prompt : JsVal num) : M num (JSON num) :=
  r <- fetchWithRetry (gemini_url model apiKey) (gemini_options prompt)
         maxAttempts ;;
  ret (snd r).

Definition configured_handler (maxAttempts : Z) (primary : string)
    (fallback : option string) (req : Request num)
    (env_key : option string) : M num unit :=
  try_catch
    (if negb (req_method req =? "POST")%string then
       respond 405 (error_body "Method not allowed")
     else
       let prompt := body_prompt (req_body req) in
       if invalid_prompt prompt then
         respond 400 (error_body "Missing or invalid prompt")
       else
         let apiKey := env_key in
         if missing_key apiKey then
           respond 500 (error_body "Missing GEMINI_API_KEY env var")
         else
           let key := key_text apiKey in
           try_catch
             (data <- configured_call maxAttempts key primary prompt ;;
              respond 200 data)
             (fun e =>
                let status := exn_status_or_0 e in
                if is_transient status then
                  match fallback with
                  | Some model =>
                      data <- configured_call maxAttempts key model prompt ;;
                      respond 200 data
                  | None => throw e
                  end
                else throw e))
    (fun e => respond 500 (error_message_body (exn_text e))).

End Configured.

(** ** Reading a trace *)

Section Traces.
Context {num : Type}.

Definition is_fetch (ev : Event num) : bool :=
  match ev with EvFetch _ _ _ => true | _ => false end.

Definition is_respond (ev : Event num) : bool :=
  match ev with EvRespond _ _ => true | _ => false end.

(** The URLs of the outbound calls, in order. *)
Fixpoint fetch_urls (tr : list (Event num)) : list string :=
  match tr with
  | [] => []
  | EvFetch url _ _ :: r => url :: fetch_urls r
  | _ :: r => fetch_urls r
  end.

(** The responses written to the client, in order. *)
Fixpoint responses (tr : list (Event num)) : list (Z * JSON num) :=
  match tr with
  | [] => []
  | EvRespond code body :: r => (code, body) :: responses r
  | _ :: r => responses r
  end.

(** The back-off waits, in order. *)
Fixpoint sleeps (tr : list (Event num)) : list Z :=
  match tr with
  | [] => []
  | EvSleep ms :: r => ms :: sleeps r
  | _ :: r => sleeps r
  end.

(** An upstream that answers the n-th outbound call with the n-th entry of
    a script, and with [dflt] once the script is used up. *)
Definition scripted (script : list (FetchResult num))
    (dflt : FetchResult num) : Upstream num :=
  fun tr _ _ => nth (length (fetch_urls tr)) script dflt.

End Traces.

(** Running a computation from the empty trace. *)
Definition run {num A : Type} (m : M num A) (up : Upstream num)
    : Outcome num A * list (Event num) :=
  m up [].

(** ** Vocabulary of the statements *)

Section Vocabulary.
Context {num : Type} {NUM : JsNumber num}.

(** What [await res.json().catch(() => ({}))] evaluates to: the parsed
    body, or the empty object when the body is not JSON.  This is the
    payload that the retry transport hands on. *)
Definition payload_of (r : Response num) : JSON num :=
  match res_body r with
  | BodyJson d => d
  | BodyInvalid _ => JObj []
  end.

(** Whether the message extracted from a response converts to a string,
    so that the template literal of its error does not throw. *)
Definition converts (r : Response num) : bool :=
  match status_msg (res_status r) (error_msg (payload_of r)) with
  | Some _ => true
  | None => false
  end.

(** The error [fetchWithRetry] throws on a response it does not retry: the
    error carrying the status, the message and the payload, or the
    [TypeError] thrown while that message is built. *)
Definition failure_of (r : Response num) : Exn num :=
  match status_msg (res_status r) (error_msg (payload_of r)) with
  | Some text =>
      mkExn "Error" text (Some (res_status r)) (Some (payload_of r))
  | None => type_error
  end.

(** The message the client reads after that failure. *)
Definition failure_text (r : Response num) : string :=
  match status_msg (res_status r) (error_msg (payload_of r)) with
  | Some text => text
  | None => "Cannot convert object to primitive value"
  end.

(** The three guards in front of the upstream call. *)
Definition rejected_early (req : Request num) (env_key : option string)
    : bool :=
  negb (req_method req =? "POST")%string
  || invalid_prompt (body_prompt (req_body req))
  || missing_key env_key.

(** The message extraction as the specification words it, by presence:
    [payload.error.message] if present, otherwise [payload.error] if
    present, otherwise the stringified payload. *)
Definition spec_message (data : JSON num) : JsVal num :=
  match opt_get (opt_get (Some data) "error") "message" with
  | Some m => Some m
  | None =>
      match opt_get (Some data) "error" with
      | Some e => Some e
      | None => Some (JStr (JSON_stringify data))
      end
  end.

(** The first truthy value among three candidates ([a || b || c]),
    written out as the precedence rule it is. *)
Definition first_truthy (a b c : JsVal num) : JsVal num :=
  if ToBoolean a then a else if ToBoolean b then b else c.

End Vocabulary.

(** ** Concrete requests and upstream behaviours *)

Module Sample.

Definition json_response (status : Z) (d : JSON Z) : FetchResult Z :=
  Resolved (mkResponse status (BodyJson d)).

(** [POST { "prompt": "hi" }]. *)
Definition post_hi : Request Z :=
  mkRequest "POST" (Some (JObj [("prompt", JStr "hi")])).

Definition get_hi : Request Z :=
  mkRequest "GET" (Some (JObj [("prompt", JStr "hi")])).

(** [POST { "prompt": "" }]. *)
Definition post_empty : Request Z :=
  mkRequest "POST" (Some (JObj [("prompt", JStr EmptyString)])).

(** [{ "error": { "message": "quota", "code": 429 } }]. *)
Definition quota_body : JSON Z :=
  JObj [("error", JObj [("message", JStr "quota"); ("code", JNum 429)])].

Definition quota_429 : Response Z := mkResponse 429 (BodyJson quota_body).

(** [{ "error": { "message": "bad" } }] under status 400. *)
Definition bad_body : JSON Z :=
  JObj [("error", JObj [("message", JStr "bad")])].

Definition bad_400 : Response Z := mkResponse 400 (BodyJson bad_body).

(** [{ "error": { "message": "" } }] under status 400: the message is
    present but empty. *)
Definition blank_body : JSON Z :=
  JObj [("error", JObj [("message", JStr EmptyString)])].

Definition blank_400 : Response Z := mkResponse 400 (BodyJson blank_body).

(** [{ "error": { "toString": null } }]: an error object with a member
    named [toString], which no template literal can print. *)
Definition shadowing_body : JSON Z :=
  JObj [("error", JObj [("toString", JNull)])].

Definition shadowing_429 : Response Z :=
  mkResponse 429 (BodyJson shadowing_body).

Definition shadowing_400 : Response Z :=
  mkResponse 400 (BodyJson shadowing_body).

(** [{ "candidates": [] }] under status 200. *)
Definition answer_body : JSON Z := JObj [("candidates", JArr [])].

Definition answer_200 : Response Z := mkResponse 200 (BodyJson answer_body).

(** The provider is rate-limited on every call. *)
Definition always_429 : Upstream Z := fun _ _ _ => Resolved quota_429.

(** The provider rejects every call as malformed. *)
Definition always_400 : Upstream Z := fun _ _ _ => Resolved bad_400.

(** The provider rejects every call with an empty error message. *)
Definition always_blank_400 : Upstream Z := fun _ _ _ => Resolved blank_400.

(** The provider is rate-limited on every call and answers with the
    unprintable error object. *)
Definition always_shadowing_429 : Upstream Z :=
  fun _ _ _ => Resolved shadowing_429.

(** The provider rejects every call as malformed, with the unprintable
    error object. *)
Definition always_shadowing_400 : Upstream Z :=
  fun _ _ _ => Resolved shadowing_400.

(** The provider answers every call. *)
Definition always_200 : Upstream Z := fun _ _ _ => Resolved answer_200.

(** One rate-limited answer with the unprintable error object, then a good
    answer. *)
Definition shadowing_then_200 : Upstream Z :=
  scripted [Resolved shadowing_429] (Resolved answer_200).

(** Four rate-limited answers, then a good one. *)
Definition limited_then_200 : Upstream Z :=
  scripted [Resolved quota_429; Resolved quota_429; Resolved quota_429;
            Resolved quota_429]
           (Resolved answer_200).

Definition primary_url : string := gemini_url MODEL_PRIMARY "k".
Definition fallback_url : string := gemini_url MODEL_FALLBACK "k".
Definition hi_options : FetchOptions := gemini_options (Some (JStr "hi")).

End Sample.

(** ** What one call of the transport can do

    [attempts url options maxAttempts a lastErr out ext]: entered at the
    loop test with attempt counter [a], the loop of [fetchWithRetry] ends
    with outcome [out] after adding the events [ext] to the trace. *)

Section Attempts.
Context {num : Type} {NUM : JsNumber num}.
Variable url : string.
Variable options : FetchOptions.
Variable maxAttempts : Z.

Inductive attempts
  : Z -> option (Exn num) -> Outcome num (Response num * JSON num) ->
    list (Event num) -> Prop :=
| attempts_exit (a : Z) (lastErr : option (Exn num)) :
    maxAttempts < a ->
    attempts a lastErr
      (Thrown (match lastErr with
               | Some e => e
               | None => new_Error "Falha desconhecida no retry."
               end)) []
| attempts_rejected (a : Z) (lastErr : option (Exn num)) (e : Exn num) :
    a <= maxAttempts ->
    attempts a lastErr (Thrown e) [EvFetch url options (Rejected e)]
| attempts_ok (a : Z) (lastErr : option (Exn num)) (r : Response num) :
    a <= maxAttempts ->
    res_ok r = true ->
    attempts a lastErr (Returned (r, payload_of r))
      [EvFetch url options (Resolved r)]
| attempts_fail (a : Z) (lastErr : option (Exn num)) (r : Response num) :
    a <= maxAttempts ->
    res_ok r = false ->
    is_transient (res_status r) && (a <? maxAttempts) = false ->
    attempts a lastErr (Thrown (failure_of r))
      [EvFetch url options (Resolved r)]
| attempts_retry (a : Z) (lastErr : option (Exn num)) (r : Response num)
    (text : string)
    (out : Outcome num (Response num * JSON num))
    (ext : list (Event num)) :
    a <= maxAttempts ->
    res_ok r = false ->
    is_transient (res_status r) && (a <? maxAttempts) = true ->
    status_msg (res_status r) (error_msg (payload_of r)) = Some text ->
    attempts (a + 1)
      (Some (mkExn "Error" text (Some (res_status r)) None))
      out ext ->
    attempts a lastErr out
      (EvFetch url options (Resolved r)
       :: EvSleep (1000 * 2 ^ (a - 1)) :: ext)
| attempts_aborted (a : Z) (lastErr : option (Exn num)) (r : Response num) :
    a <= maxAttempts ->
    res_ok r = false ->
    is_transient (res_status r) && (a <? maxAttempts) = true ->
    status_msg (res_status r) (error_msg (payload_of r)) = None ->
    attempts a lastErr (Thrown type_error)
      [EvFetch url options (Resolved r); EvSleep (1000 * 2 ^ (a - 1))].

End Attempts.

(** ** Vocabulary of the further properties *)

Section Schedules.
Context {num : Type}.

(** The events of a row of answers that were each retried: every answer is
    followed by the back-off sleep of its attempt, the first of them being
    attempt [a]. *)
Fixpoint retried (url : string) (options : FetchOptions) (a : Z)
    (rs : list (Response num)) : list (Event num) :=
  match rs with
  | [] => []
  | r :: rs' =>
      EvFetch url options (Resolved r)
      :: EvSleep (1000 * 2 ^ (a - 1))
      :: retried url options (a + 1) rs'
  end.

(** The time spent in back-off sleeps, in milliseconds. *)
Definition total_wait (tr : list (Event num)) : Z :=
  fold_right Z.add 0 (sleeps tr).

(** The answer to the last outbound call of a trace. *)
Fixpoint last_fetch (tr : list (Event num)) : option (FetchResult num) :=
  match tr with
  | [] => None
  | ev :: r =>
      match last_fetch r with
      | Some x => Some x
      | None =>
          match ev with
          | EvFetch _ _ x => Some x
          | _ => None
          end
      end
  end.

(** The answers to the calls of one URL, in order. *)
Fixpoint fetch_results (url : string) (tr : list (Event num))
    : list (FetchResult num) :=
  match tr with
  | [] => []
  | EvFetch u _ x :: r =>
      if (u =? url)%string then x :: fetch_results url r
      else fetch_results url r
  | _ :: r => fetch_results url r
  end.

(** An answer with status 429 or 503. *)
Definition transient_answer (x : FetchResult num) : bool :=
  match x with
  | Resolved r => is_transient (res_status r)
  | Rejected _ => false
  end.

(** A rejected fetch whose error carries a status of 429 or 503. *)
Definition transient_rejection (x : FetchResult num) : bool :=
  match x with
  | Resolved _ => false
  | Rejected e => is_transient (exn_status_or_0 e)
  end.

End Schedules.

(** ** More concrete upstream behaviours *)

Module Scenario.

(** The error of a fetch that could not reach the provider. *)
Definition fetch_failed : Exn Z := mkExn "TypeError" "fetch failed" None None.

(** The provider cannot be reached. *)
Definition unreachable : Upstream Z := fun _ _ _ => Rejected fetch_failed.

(** The error [res.json()] rejects with on a body that is not JSON. *)
Definition not_json : Exn Z :=
  mkExn "SyntaxError" "Unexpected token < in JSON" None None.

(** A gateway error page: status 502 and an HTML body. *)
Definition html_502 : Response Z := mkResponse 502 (BodyInvalid not_json).

Definition always_502 : Upstream Z := fun _ _ _ => Resolved html_502.

(** [{ "error": "overloaded" }] under status 503. *)
Definition overloaded_body : JSON Z := JObj [("error", JStr "overloaded")].

Definition overloaded_503 : Response Z :=
  mkResponse 503 (BodyJson overloaded_body).

(** Rate-limited, then overloaded, then a good answer. *)
Definition recovers_on_third : Upstream Z :=
  scripted [Resolved Sample.quota_429; Resolved overloaded_503]
           (Resolved Sample.answer_200).

(** Rate-limited and overloaded in turn for four calls, then a good
    answer. *)
Definition mixed_then_200 : Upstream Z :=
  scripted [Resolved Sample.quota_429; Resolved overloaded_503;
            Resolved overloaded_503; Resolved Sample.quota_429]
           (Resolved Sample.answer_200).

(** [{ "detail": 7 }]: an error body without an [error] member. *)
Definition detail_body : JSON Z := JObj [("detail", JNum 7)].

End Scenario.

(** * Properties *)

(** ** The retry transport *)

Section Transport.
Context {num : Type} {NUM : JsNumber num}.
Variable up : Upstream num.
Variable url : string.
Variable options : FetchOptions.
Variable maxAttempts : Z.

Lemma res_json_catch (r : Response num) (tr : list (Event num)) :
  try_catch (res_json r) (fun _ => ret (JObj [])) up tr
  = (Returned (payload_of r), tr).
Proof.
  unfold try_catch, res_json, payload_of.
  destruct (res_body r); reflexivity.
Qed.

(** One turn of the loop, as a function of what the upstream answers. *)
Lemma loop_step (fuel : nat) (attempt : Z) (lastErr : option (Exn num))
    (tr : list (Event num)) :
  attempt <= maxAttempts ->
  fetchWithRetry_loop (S fuel) url options maxAttempts attempt lastErr up tr
  = match up tr url options with
    | Rejected e =>
        (Thrown e, (tr ++ [EvFetch url options (Rejected e)])%list)
    | Resolved r =>
        let tr1 := (tr ++ [EvFetch url options (Resolved r)])%list in
        if res_ok r then (Returned (r, payload_of r), tr1)
        else if is_transient (res_status r) && (attempt <? maxAttempts) then
          let tr2 := (tr1 ++ [EvSleep (1000 * 2 ^ (attempt - 1))])%list in
          match status_msg (res_status r) (error_msg (payload_of r)) with
          | Some text =>
              fetchWithRetry_loop fuel url options maxAttempts (attempt + 1)
                (Some (mkExn "Error" text (Some (res_status r)) None))
                up tr2
          | None => (Thrown type_error, tr2)
          end
        else (Thrown (failure_of r), tr1)
    end.
Proof.
  intros Hle. cbn [fetchWithRetry_loop].
  apply Z.leb_le in Hle. rewrite Hle.
  unfold bind at 1. unfold fetch.
  destruct (up tr url options) as [r | e]; [| reflexivity].
  unfold bind at 1. rewrite res_json_catch. cbv zeta.
  destruct (res_ok r); [reflexivity |].
  unfold failure_of, new_status_Error.
  destruct (is_transient (res_status r) && (attempt <? maxAttempts));
    destruct (status_msg (res_status r) (error_msg (payload_of r)));
    reflexivity.
Qed.

(** Past the budget the loop ends and the trailing [throw] runs. *)
Lemma loop_exit (fuel : nat) (attempt : Z) (lastErr : option (Exn num))
    (tr : list (Event num)) :
  maxAttempts < attempt ->
  fetchWithRetry_loop (S fuel) url options maxAttempts attempt lastErr up tr
  = (Thrown (match lastErr with
             | Some e => e
             | None => new_Error "Falha desconhecida no retry."
             end), tr).
Proof.
  intros Hlt. cbn [fetchWithRetry_loop].
  apply Z.leb_gt in Hlt. rewrite Hlt. reflexivity.
Qed.

End Transport.

Section TransportRuns.
Context {num : Type} {NUM : JsNumber num}.
Variable up : Upstream num.
Variable url : string.
Variable options : FetchOptions.
Variable maxAttempts : Z.

(** With fuel for the remaining budget the loop runs to an end, and what
    it does is a run in the sense of [attempts]. *)
Lemma loop_attempts (fuel : nat) :
  forall (a : Z) (lastErr : option (Exn num)) (tr : list (Event num)),
    (Z.to_nat (maxAttempts + 1 - a) < fuel)%nat ->
    exists out ext,
      fetchWithRetry_loop fuel url options maxAttempts a lastErr up tr
      = (out, (tr ++ ext)%list)
      /\ attempts url options maxAttempts a lastErr out ext.
Proof.
  induction fuel as [| fuel IH]; intros a lastErr tr Hfuel; [lia |].
  destruct (Z_lt_le_dec maxAttempts a) as [Hgt | Hle].
  - rewrite loop_exit by assumption.
    eexists; exists []. rewrite app_nil_r. split; [reflexivity |].
    now constructor.
  - rewrite loop_step by assumption.
    destruct (up tr url options) as [r | e].
    + cbv zeta. destruct (res_ok r) eqn:Hok.
      * eexists; eexists. split; [reflexivity |]. now constructor.
      * destruct (is_transient (res_status r) && (a <? maxAttempts))
          eqn:Hretry.
        -- destruct (status_msg (res_status r) (error_msg (payload_of r)))
             as [text |] eqn:Hmsg.
           ++ destruct (IH (a + 1)
                          (Some (mkExn "Error" text (Some (res_status r)) None))
                          ((tr ++ [EvFetch url options (Resolved r)]) ++
                           [EvSleep (1000 * 2 ^ (a - 1))])%list)
                as (out & ext & Heq & Hrun); [lia |].
              exists out.
              exists (EvFetch url options (Resolved r)
                      :: EvSleep (1000 * 2 ^ (a - 1)) :: ext).
              split.
              ** rewrite Heq. f_equal. rewrite <- !app_assoc. reflexivity.
              ** now apply attempts_retry with (text := text).
           ++ eexists.
              exists [EvFetch url options (Resolved r);
                      EvSleep (1000 * 2 ^ (a - 1))].
              split.
              ** rewrite <- !app_assoc. reflexivity.
              ** now apply attempts_aborted.
        -- eexists; eexists. split; [reflexivity |]. now constructor.
    + eexists; eexists. split; [reflexivity |]. now constructor.
Qed.

Lemma fetchWithRetry_attempts (tr : list (Event num)) :
  exists out ext,
    fetchWithRetry url options maxAttempts up tr = (out, (tr ++ ext)%list)
    /\ attempts url options maxAttempts 1 None out ext.
Proof.
  unfold fetchWithRetry. apply loop_attempts. lia.
Qed.

End TransportRuns.

(** ** Reading traces piecewise *)

Section TraceFacts.
Context {num : Type}.

Lemma fetch_urls_app (t1 t2 : list (Event num)) :
  fetch_urls (t1 ++ t2) = (fetch_urls t1 ++ fetch_urls t2)%list.
Proof.
  induction t1 as [| ev t1 IH]; [reflexivity |].
  destruct ev; cbn; now rewrite IH.
Qed.

Lemma responses_app (t1 t2 : list (Event num)) :
  responses (t1 ++ t2) = (responses t1 ++ responses t2)%list.
Proof.
  induction t1 as [| ev t1 IH]; [reflexivity |].
  destruct ev; cbn; now rewrite IH.
Qed.

Lemma sleeps_app (t1 t2 : list (Event num)) :
  sleeps (t1 ++ t2) = (sleeps t1 ++ sleeps t2)%list.
Proof.
  induction t1 as [| ev t1 IH]; [reflexivity |].
  destruct ev; cbn; now rewrite IH.
Qed.

End TraceFacts.

(** ** Facts about every run of the transport *)

Section AttemptsFacts.
Context {num : Type} {NUM : JsNumber num}.
Variable url : string.
Variable options : FetchOptions.
Variable maxAttempts : Z.

Local Abbreviation run_of := (attempts (num := num) url options maxAttempts).

(** The transport writes nothing to the client. *)
Lemma attempts_responses a lastErr out ext :
  run_of a lastErr out ext -> responses ext = [].
Proof.
  induction 1; cbn; auto.
Qed.

(** It always comes to an end. *)
Lemma attempts_ends a lastErr out ext :
  run_of a lastErr out ext -> out <> OutOfFuel.
Proof.
  induction 1; auto; discriminate.
Qed.

(** It calls one URL only, at most once per attempt left in the budget and
    at least once when any attempt is left. *)
Lemma attempts_urls a lastErr out ext :
  run_of a lastErr out ext ->
  exists k : nat,
    fetch_urls ext = repeat url k
    /\ (k <= Z.to_nat (maxAttempts + 1 - a))%nat
    /\ (a <= maxAttempts -> (1 <= k)%nat).
Proof.
  induction 1 as [a lastErr Hgt | a lastErr e Hle | a lastErr r Hle Hok
                 | a lastErr r Hle Hok Hno
                 | a lastErr r text out ext Hle Hok Hretry Hmsg Hrun IH
                 | a lastErr r Hle Hok Hretry Hmsg].
  - exists 0%nat. cbn. repeat split; lia.
  - exists 1%nat. cbn. repeat split; lia.
  - exists 1%nat. cbn. repeat split; lia.
  - exists 1%nat. cbn. repeat split; lia.
  - destruct IH as (k & Hk & Hbound & _).
    exists (S k). cbn. rewrite Hk. repeat split; lia.
  - exists 1%nat. cbn. repeat split; lia.
Qed.

(** A returned payload is the payload of the last response, which had a
    success status. *)
Lemma attempts_returned a lastErr r d ext :
  run_of a lastErr (Returned (r, d)) ext ->
  d = payload_of r /\ res_ok r = true
  /\ exists pre, ext = (pre ++ [EvFetch url options (Resolved r)])%list.
Proof.
  remember (Returned (r, d)) as out eqn:Hout.
  induction 1 as [a lastErr Hgt | a lastErr e Hle | a lastErr r' Hle Hok
                 | a lastErr r' Hle Hok Hno
                 | a lastErr r' text out ext Hle Hok Hretry Hmsg Hrun IH
                 | a lastErr r' Hle Hok Hretry Hmsg];
    try discriminate.
  - injection Hout as -> ->. repeat split; auto. now exists [].
  - destruct (IH Hout) as (Hd & Hr & pre & Hext).
    repeat split; auto.
    exists (EvFetch url options (Resolved r')
            :: EvSleep (1000 * 2 ^ (a - 1)) :: pre).
    cbn. now rewrite Hext.
Qed.

(** A response with a success status ends the run at once, with its
    payload. *)
Lemma attempts_ok_fetch a lastErr out ext u o r :
  run_of a lastErr out ext ->
  In (EvFetch u o (Resolved r)) ext ->
  res_ok r = true ->
  out = Returned (r, payload_of r).
Proof.
  induction 1 as [a lastErr Hgt | a lastErr e Hle | a lastErr r' Hle Hok
                 | a lastErr r' Hle Hok Hno
                 | a lastErr r' text out ext Hle Hok Hretry Hmsg Hrun IH
                 | a lastErr r' Hle Hok Hretry Hmsg];
    cbn; intros Hin Hr.
  - contradiction.
  - destruct Hin as [Heq | []]. discriminate.
  - destruct Hin as [Heq | []]. now injection Heq as _ _ ->.
  - destruct Hin as [Heq | []]. injection Heq as _ _ ->. congruence.
  - destruct Hin as [Heq | [Heq | Hin]].
    + injection Heq as _ _ ->. congruence.
    + discriminate.
    + auto.
  - destruct Hin as [Heq | [Heq | []]]; [| discriminate].
    injection Heq as _ _ ->. congruence.
Qed.

(** A failure raised on a response is the failure thrown on that response:
    its status error, or the [TypeError] of a message that cannot be built. *)
Lemma attempts_thrown a lastErr e ext pre u o r :
  run_of a lastErr (Thrown e) ext ->
  ext = (pre ++ [EvFetch u o (Resolved r)])%list ->
  e = failure_of r.
Proof.
  remember (Thrown e) as out eqn:Hout. intros Hrun. revert pre.
  induction Hrun as [a lastErr Hgt | a lastErr e' Hle | a lastErr r' Hle Hok
                 | a lastErr r' Hle Hok Hno
                 | a lastErr r' text out ext Hle Hok Hretry Hmsg Hrun IH
                 | a lastErr r' Hle Hok Hretry Hmsg];
    intros pre Hext.
  - now destruct pre.
  - destruct pre as [| p pre]; [discriminate | now destruct pre].
  - discriminate.
  - destruct pre as [| p pre]; [| now destruct pre].
    injection Hext as _ _ ->. now injection Hout as ->.
  - destruct pre as [| p1 [| p2 pre]].
    + discriminate.
    + cbn in Hext. injection Hext as _ Hs _. discriminate.
    + cbn in Hext. injection Hext as _ _ Hext. eauto.
  - destruct pre as [| p1 [| p2 pre]].
    + discriminate.
    + cbn in Hext. injection Hext as _ Hs. discriminate.
    + cbn in Hext. injection Hext as _ _ Hext. now destruct pre.
Qed.

End AttemptsFacts.

(** ** The handler, path by path *)

Section HandlerPaths.
Context {num : Type} {NUM : JsNumber num}.
Variable up : Upstream num.

Lemma rejected_early_false (req : Request num) (env_key : option string) :
  rejected_early req env_key = false ->
  (req_method req =? "POST")%string = true
  /\ invalid_prompt (body_prompt (req_body req)) = false
  /\ missing_key env_key = false.
Proof.
  unfold rejected_early. intros H.
  apply orb_false_iff in H as [H Hkey].
  apply orb_false_iff in H as [Hm Hp].
  apply negb_false_iff in Hm. auto.
Qed.

(** A prompt passes the guard exactly when it is a non-empty string. *)
Lemma invalid_prompt_false (p : JsVal num) :
  invalid_prompt p = false <->
  exists s, p = Some (JStr s) /\ s <> EmptyString.
Proof.
  unfold invalid_prompt. split.
  - intros H. apply orb_false_iff in H as [Ht Hs].
    apply negb_false_iff in Ht, Hs.
    destruct p as [[| b | n | s | l | kvs] |]; try discriminate.
    exists s. split; [reflexivity |].
    cbn in Ht. apply negb_true_iff in Ht.
    now apply String.eqb_neq in Ht.
  - intros (s & -> & Hs). cbn.
    apply String.eqb_neq in Hs. now rewrite Hs.
Qed.

(** A key passes the guard exactly when it is set and not empty. *)
Lemma missing_key_false (env_key : option string) :
  missing_key env_key = false <->
  exists k, env_key = Some k /\ k <> EmptyString.
Proof.
  unfold missing_key. split.
  - destruct env_key as [k |]; [| discriminate].
    intros H. exists k. split; [reflexivity |]. now apply String.eqb_neq.
  - intros (k & -> & Hk). now apply String.eqb_neq.
Qed.

Lemma handler_not_post req env_key tr :
  (req_method req =? "POST")%string = false ->
  handler req env_key up tr
  = (Returned tt, (tr ++ [EvRespond 405 (error_body "Method not allowed")])%list).
Proof.
  intros H. unfold handler, try_catch. now rewrite H.
Qed.

Lemma handler_invalid_prompt req env_key tr :
  (req_method req =? "POST")%string = true ->
  invalid_prompt (body_prompt (req_body req)) = true ->
  handler req env_key up tr
  = (Returned tt,
     (tr ++ [EvRespond 400 (error_body "Missing or invalid prompt")])%list).
Proof.
  intros Hm Hp. unfold handler, try_catch. rewrite Hm. cbn [negb].
  cbv zeta. now rewrite Hp.
Qed.

Lemma handler_missing_key req env_key tr :
  (req_method req =? "POST")%string = true ->
  invalid_prompt (body_prompt (req_body req)) = false ->
  missing_key env_key = true ->
  handler req env_key up tr
  = (Returned tt,
     (tr ++ [EvRespond 500 (error_body "Missing GEMINI_API_KEY env var")])%list).
Proof.
  intros Hm Hp Hk. unfold handler, try_catch. rewrite Hm. cbn [negb].
  cbv zeta. rewrite Hp, Hk. reflexivity.
Qed.

(** Past the guards: the primary call, then the fallback call when the
    primary failure carries a transient status. *)
Lemma handler_calls req env_key tr :
  rejected_early req env_key = false ->
  let key := key_text env_key in
  let prompt := body_prompt (req_body req) in
  handler req env_key up tr
  = match callGemini key MODEL_PRIMARY prompt up tr with
    | (Returned d, tr1) => (Returned tt, (tr1 ++ [EvRespond 200 d])%list)
    | (Thrown e, tr1) =>
        if is_transient (exn_status_or_0 e) then
          match callGemini key MODEL_FALLBACK prompt up tr1 with
          | (Returned d, tr2) => (Returned tt, (tr2 ++ [EvRespond 200 d])%list)
          | (Thrown e2, tr2) =>
              (Returned tt,
               (tr2 ++ [EvRespond 500 (error_message_body (exn_text e2))])%list)
          | (OutOfFuel, tr2) => (OutOfFuel, tr2)
          end
        else
          (Returned tt,
           (tr1 ++ [EvRespond 500 (error_message_body (exn_text e))])%list)
    | (OutOfFuel, tr1) => (OutOfFuel, tr1)
    end.
Proof.
  intros Hvalid. apply rejected_early_false in Hvalid as (Hm & Hp & Hk).
  cbv zeta. unfold handler. rewrite Hm. cbn [negb]. cbv zeta.
  rewrite Hp, Hk. unfold try_catch, bind.
  destruct (callGemini (key_text env_key) MODEL_PRIMARY
              (body_prompt (req_body req)) up tr) as [[d | e |] tr1];
    try reflexivity.
  destruct (is_transient (exn_status_or_0 e)); [| reflexivity].
  destruct (callGemini (key_text env_key) MODEL_FALLBACK
              (body_prompt (req_body req)) up tr1) as [[d | e2 |] tr2];
    reflexivity.
Qed.

(** Everything one call of [callGemini] can do. *)
Lemma callGemini_runs key model prompt tr :
  exists out ext,
    callGemini key model prompt up tr = (out, (tr ++ ext)%list)
    /\ responses ext = []
    /\ (exists n : nat,
          fetch_urls ext = repeat (gemini_url model key) n
          /\ (1 <= n <= 4)%nat)
    /\ out <> OutOfFuel
    /\ (forall d, out = Returned d ->
          exists pre r,
            ext = (pre ++ [EvFetch (gemini_url model key)
                             (gemini_options prompt) (Resolved r)])%list
            /\ res_ok r = true /\ d = payload_of r)
    /\ (forall u o r,
          In (EvFetch u o (Resolved r)) ext -> res_ok r = true ->
          out = Returned (payload_of r)).
Proof.
  destruct (fetchWithRetry_attempts up (gemini_url model key)
              (gemini_options prompt) 4 tr) as (out & ext & Heq & Hrun).
  unfold callGemini, bind. rewrite Heq.
  pose proof (attempts_responses _ _ _ _ _ _ _ Hrun) as Hresp.
  pose proof (attempts_ends _ _ _ _ _ _ _ Hrun) as Hends.
  destruct (attempts_urls _ _ _ _ _ _ _ Hrun) as (n & Hurls & Hmax & Hmin).
  destruct out as [[r d] | e |].
  - exists (Returned d), ext. split; [reflexivity |].
    split; [assumption |]. split; [exists n; split; [assumption | lia] |].
    split; [discriminate |]. split.
    + intros d' Hd. injection Hd as <-.
      destruct (attempts_returned _ _ _ _ _ _ _ _ Hrun) as (Hd & Hok & pre & Hext).
      exists pre, r. auto.
    + intros u o r' Hin Hok.
      pose proof (attempts_ok_fetch _ _ _ _ _ _ _ _ _ _ Hrun Hin Hok) as Hout.
      now injection Hout as -> ->.
  - exists (Thrown e), ext. split; [reflexivity |].
    split; [assumption |]. split; [exists n; split; [assumption | lia] |].
    split; [discriminate |]. split.
    + discriminate.
    + intros u o r' Hin Hok.
      pose proof (attempts_ok_fetch _ _ _ _ _ _ _ _ _ _ Hrun Hin Hok).
      discriminate.
  - now contradiction Hends.
Qed.

End HandlerPaths.

(** ** First steps of a call *)

Section FirstSteps.
Context {num : Type} {NUM : JsNumber num}.
Variable up : Upstream num.

(** The message of a status error is never empty. *)
Lemma status_msg_nonempty (status : Z) (msg : JsVal num) (text : string) :
  status_msg status msg = Some text ->
  (text =? EmptyString)%string = false.
Proof.
  unfold status_msg. destruct (ToString_val msg) as [t |]; [| discriminate].
  intros H. injection H as <-. destruct (show_Z status); reflexivity.
Qed.

(** What the client reads of the failure thrown on a response. *)
Lemma exn_text_failure (r : Response num) :
  exn_text (failure_of r) = failure_text r.
Proof.
  unfold exn_text, failure_of, failure_text.
  destruct (status_msg (res_status r) (error_msg (payload_of r)))
    as [text |] eqn:Hmsg; cbn [exn_message]; [| reflexivity].
  now rewrite (status_msg_nonempty _ _ _ Hmsg).
Qed.

(** The status the handler reads on that failure: the [TypeError] has
    none. *)
Lemma exn_status_failure (r : Response num) :
  exn_status_or_0 (failure_of r) = if converts r then res_status r else 0.
Proof.
  unfold failure_of, converts.
  now destruct (status_msg (res_status r) (error_msg (payload_of r))).
Qed.

(** A failure without a transient status stays so when it is the
    [TypeError]. *)
Lemma permanent_failure_status (r : Response num) :
  is_transient (res_status r) = false ->
  is_transient (exn_status_or_0 (failure_of r)) = false.
Proof.
  intros H. rewrite exn_status_failure. now destruct (converts r).
Qed.

(** The first attempt of a call with a budget of at least one. *)
Lemma fetchWithRetry_step url options maxAttempts tr :
  1 <= maxAttempts ->
  fetchWithRetry url options maxAttempts up tr
  = match up tr url options with
    | Rejected e =>
        (Thrown e, (tr ++ [EvFetch url options (Rejected e)])%list)
    | Resolved r =>
        let tr1 := (tr ++ [EvFetch url options (Resolved r)])%list in
        if res_ok r then (Returned (r, payload_of r), tr1)
        else if is_transient (res_status r) && (1 <? maxAttempts) then
          let tr2 := (tr1 ++ [EvSleep (1000 * 2 ^ (1 - 1))])%list in
          match status_msg (res_status r) (error_msg (payload_of r)) with
          | Some text =>
              fetchWithRetry_loop (Z.to_nat maxAttempts) url options
                maxAttempts (1 + 1)
                (Some (mkExn "Error" text (Some (res_status r)) None))
                up tr2
          | None => (Thrown type_error, tr2)
          end
        else (Thrown (failure_of r), tr1)
    end.
Proof.
  intros H. unfold fetchWithRetry. rewrite Nat.add_1_r.
  now apply loop_step.
Qed.

End FirstSteps.

(** * The claims of the specification *)

(** C9.  A POST whose body has no [prompt], whose [prompt] is not a string,
    or whose [prompt] is the empty string is answered 400 with
    [{error: "Missing or invalid prompt"}], and no outbound call is made:
    the trace of the whole run is that single response. *)
Theorem invalid_prompt_rejected {num : Type} {NUM : JsNumber num}
    (req : Request num) (env_key : option string) (up : Upstream num) :
  req_method req = "POST" ->
  (body_prompt (req_body req) = None
   \/ is_string (body_prompt (req_body req)) = false
   \/ body_prompt (req_body req) = Some (JStr EmptyString)) ->
  run (handler req env_key) up
  = (Returned tt, [EvRespond 400 (error_body "Missing or invalid prompt")])
  /\ fetch_urls (snd (run (handler req env_key) up)) = [].
Proof.
  intros Hm Hp.
  assert (Hbad : invalid_prompt (body_prompt (req_body req)) = true).
  { unfold invalid_prompt. destruct Hp as [-> | [Hs | ->]].
    - reflexivity.
    - rewrite Hs. apply orb_true_r.
    - reflexivity. }
  apply String.eqb_eq in Hm.
  unfold run. rewrite (handler_invalid_prompt up req env_key [] Hm Hbad).
  split; reflexivity.
Qed.

Lemma invalid_prompt_rejected_witness :
  req_method Sample.post_empty = "POST"
  /\ body_prompt (req_body Sample.post_empty) = Some (JStr EmptyString)
  /\ run (handler Sample.post_empty (Some "k")) Sample.always_200
     = (Returned tt, [EvRespond 400 (error_body "Missing or invalid prompt")])
  /\ fetch_urls (snd (run (handler Sample.post_empty (Some "k"))
                        Sample.always_200)) = [].
Proof.
  split; [reflexivity |]. split; [reflexivity |].
  apply (invalid_prompt_rejected Sample.post_empty (Some "k")
           Sample.always_200).
  - reflexivity.
  - right; right; reflexivity.
Defined.

(** C10.  A [GEMINI_API_KEY] that is set to the empty string is treated
    exactly like one that is not set: the two runs coincide for every
    request, and for a POST with a valid prompt the run is the single
    response 500 [{error: "Missing GEMINI_API_KEY env var"}], with no
    outbound call. *)
Theorem empty_key_is_missing_key {num : Type} {NUM : JsNumber num}
    (req : Request num) (up : Upstream num) :
  run (handler req (Some EmptyString)) up = run (handler req None) up
  /\ (req_method req = "POST" ->
      forall s, body_prompt (req_body req) = Some (JStr s) ->
      s <> EmptyString ->
      run (handler req (Some EmptyString)) up
      = (Returned tt,
         [EvRespond 500 (error_body "Missing GEMINI_API_KEY env var")])
      /\ fetch_urls (snd (run (handler req (Some EmptyString)) up)) = []).
Proof.
  split.
  - unfold run.
    destruct (req_method req =? "POST")%string eqn:Hm.
    + destruct (invalid_prompt (body_prompt (req_body req))) eqn:Hp.
      * now rewrite !handler_invalid_prompt.
      * now rewrite !handler_missing_key.
    + now rewrite !handler_not_post.
  - intros Hm s Hs Hne. apply String.eqb_eq in Hm.
    assert (Hp : invalid_prompt (body_prompt (req_body req)) = false).
    { apply invalid_prompt_false. now exists s. }
    unfold run. rewrite handler_missing_key by auto. split; reflexivity.
Qed.

Lemma empty_key_is_missing_key_witness :
  req_method Sample.post_hi = "POST"
  /\ body_prompt (req_body Sample.post_hi) = Some (JStr "hi")
  /\ run (handler Sample.post_hi (Some EmptyString)) Sample.always_200
     = (Returned tt,
        [EvRespond 500 (error_body "Missing GEMINI_API_KEY env var")]).
Proof.
  split; [reflexivity |]. split; [reflexivity |].
  apply (proj2 (empty_key_is_missing_key Sample.post_hi Sample.always_200)
           eq_refl "hi" eq_refl).
  discriminate.
Defined.

(** C6, at the failing input.  The primary target answers 400 with
    [{error: {toString: null}}].  As claimed there is one outbound call, no
    retry and no fallback, and the response is 500.  But the extracted
    message is the error object, which has a member named [toString] and
    cannot be printed: the template literal that builds the status error
    throws a [TypeError], and the client reads the message of that
    [TypeError], which carries neither the status nor anything of the
    upstream error body. *)
Lemma permanent_failure_with_unprintable_error :
  error_msg Sample.shadowing_body = Some (JObj [("toString", JNull)])
  /\ status_msg 400 (error_msg Sample.shadowing_body) = None
  /\ run (handler Sample.post_hi (Some "k")) Sample.always_shadowing_400
     = (Returned tt,
        [EvFetch Sample.primary_url Sample.hi_options
           (Resolved Sample.shadowing_400);
         EvRespond 500
           (error_message_body "Cannot convert object to primitive value")]).
Proof.
  repeat split.
Qed.

(** C2, at the failing inputs.  Answered 429 with
    [{error: {toString: null}}] at its first attempt, with a budget of
    four, the transport sleeps 1000 ms as claimed but then makes no second
    attempt: building the error of the retried attempt throws a
    [TypeError], which ends the call.  Answered 400 with the same body, it
    fails at once, but with that [TypeError], which carries no status and
    no payload, instead of the failure carrying the status, the message and
    the payload. *)
Lemma retry_aborted_by_unprintable_error :
  run (fetchWithRetry Sample.primary_url Sample.hi_options 4)
    Sample.always_shadowing_429
  = (Thrown type_error,
     [EvFetch Sample.primary_url Sample.hi_options
        (Resolved Sample.shadowing_429);
      EvSleep 1000])
  /\ run (fetchWithRetry Sample.primary_url Sample.hi_options 4)
       Sample.always_shadowing_400
     = (Thrown type_error,
        [EvFetch Sample.primary_url Sample.hi_options
           (Resolved Sample.shadowing_400)])
  /\ exn_status (type_error (num := Z)) = None
  /\ exn_data (type_error (num := Z)) = None.
Proof.
  repeat split.
Qed.

(** ** The message of a failure *)

Section FailureMessage.
Context {num : Type} {NUM : JsNumber num}.

(** The [||] chain picks the first truthy candidate. *)
Lemma error_msg_first_truthy (data : JSON num) :
  error_msg data
  = first_truthy (opt_get (opt_get (Some data) "error") "message")
      (opt_get (Some data) "error")
      (Some (JStr (JSON_stringify data))).
Proof.
  unfold error_msg, js_or, first_truthy.
  destruct (ToBoolean (opt_get (opt_get (Some data) "error") "message"))
    eqn:Ha; [now rewrite Ha | reflexivity].
Qed.

(** Where the candidate that is present first is also truthy, the chain
    picks it: there the code and the precedence by presence agree. *)
Lemma error_msg_spec_message (data : JSON num) :
  ToBoolean (spec_message data) = true ->
  error_msg data = spec_message data.
Proof.
  rewrite error_msg_first_truthy. unfold spec_message, first_truthy.
  destruct (opt_get (opt_get (Some data) "error") "message") as [m |].
  - now intros ->.
  - cbn [ToBoolean].
    destruct (opt_get (Some data) "error") as [e |].
    + now intros ->.
    + reflexivity.
Qed.

End FailureMessage.

(** C4, refuted as stated.  The message of the failure is not the extracted
    value itself.  Answered 400 with [{error: {message: "bad"}}], the
    transport throws an error whose message is ["400: bad"], while the
    stated precedence extracts ["bad"].  Answered 400 with
    [{error: {message: ""}}], where the message is present but empty, the
    stated precedence extracts the empty string, while the code moves on to
    [payload.error] and the message is ["400: [object Object]"]. *)
Lemma failure_message_is_not_the_bare_value :
  (run (fetchWithRetry Sample.primary_url Sample.hi_options 4)
     Sample.always_400
   = (Thrown (mkExn "Error" "400: bad" (Some 400) (Some Sample.bad_body)),
      [EvFetch Sample.primary_url Sample.hi_options
         (Resolved Sample.bad_400)])
   /\ ToString_val (spec_message Sample.bad_body) = Some "bad"
   /\ Some "400: bad" <> ToString_val (spec_message Sample.bad_body))
  /\ (run (fetchWithRetry Sample.primary_url Sample.hi_options 4)
        Sample.always_blank_400
      = (Thrown (mkExn "Error" "400: [object Object]" (Some 400)
                   (Some Sample.blank_body)),
         [EvFetch Sample.primary_url Sample.hi_options
            (Resolved Sample.blank_400)])
      /\ ToString_val (spec_message Sample.blank_body) = Some EmptyString
      /\ Some "400: [object Object]"
         <> ToString_val (spec_message Sample.blank_body)).
Proof.
  repeat split; try reflexivity; discriminate.
Qed.

(** C4, amended.  When the retry transport ends by throwing on an upstream
    response (the last event of the call is that response), and the first
    truthy value among [payload.error.message], [payload.error] and
    [JSON.stringify(payload)] converts to a string, the failure carries the
    status and the payload of the response, and its message is the decimal
    status, a colon and a space, followed by that string.  Whenever the
    candidate that is present first is truthy, the value picked is the one
    the stated precedence picks.  Nothing is said here of a picked value
    that does not convert to a string. *)
Theorem failure_message_format {num : Type} {NUM : JsNumber num}
    (up : Upstream num) (url : string) (options : FetchOptions)
    (maxAttempts : Z) (tr pre : list (Event num)) (e : Exn num)
    (r : Response num) (text : string) :
  fetchWithRetry url options maxAttempts up tr
  = (Thrown e, (tr ++ pre ++ [EvFetch url options (Resolved r)])%list) ->
  let payload := payload_of r in
  let picked :=
    first_truthy (opt_get (opt_get (Some payload) "error") "message")
      (opt_get (Some payload) "error")
      (Some (JStr (JSON_stringify payload))) in
  ToString_val picked = Some text ->
  exn_status e = Some (res_status r)
  /\ exn_data e = Some payload
  /\ exn_message e = show_Z (res_status r) ++ ": " ++ text
  /\ (ToBoolean (spec_message payload) = true ->
      picked = spec_message payload).
Proof.
  intros Heq payload picked Htext.
  destruct (fetchWithRetry_attempts up url options maxAttempts tr)
    as (out & ext & Heq' & Hrun).
  rewrite Heq in Heq'. injection Heq' as <- Hext.
  apply app_inv_head in Hext.
  rewrite (attempts_thrown _ _ _ _ _ _ _ _ _ _ _ Hrun (eq_sym Hext)).
  unfold failure_of, status_msg. fold payload.
  rewrite error_msg_first_truthy. fold picked. rewrite Htext.
  cbn [exn_status exn_data exn_message]. repeat split.
  intros Htruthy. unfold picked. rewrite <- error_msg_first_truthy.
  now apply error_msg_spec_message.
Qed.

Lemma failure_message_format_witness :
  run (fetchWithRetry Sample.primary_url Sample.hi_options 4)
    Sample.always_400
  = (Thrown (mkExn "Error" "400: bad" (Some 400) (Some Sample.bad_body)),
     [EvFetch Sample.primary_url Sample.hi_options (Resolved Sample.bad_400)])
  /\ exn_message (mkExn "Error" "400: bad" (Some 400) (Some Sample.bad_body))
     = show_Z 400 ++ ": " ++ "bad".
Proof.
  split; [reflexivity |].
  exact (proj1 (proj2 (proj2
           (failure_message_format Sample.always_400 Sample.primary_url
              Sample.hi_options 4 [] []
              (mkExn "Error" "400: bad" (Some 400) (Some Sample.bad_body))
              Sample.bad_400 "bad" eq_refl eq_refl)))).
Defined.

(** ** Every run of the handler *)

Section HandlerRuns.
Context {num : Type} {NUM : JsNumber num}.
Variable up : Upstream num.

(** A request stopped by a guard is answered at once. *)
Lemma handler_rejected req env_key tr :
  rejected_early req env_key = true ->
  exists code body,
    handler req env_key up tr
    = (Returned tt, (tr ++ [EvRespond code body])%list)
    /\ ((code = 405 /\ body = error_body "Method not allowed")
        \/ (code = 400 /\ body = error_body "Missing or invalid prompt")
        \/ (code = 500 /\ body = error_body "Missing GEMINI_API_KEY env var")).
Proof.
  unfold rejected_early. intros H.
  destruct (req_method req =? "POST")%string eqn:Hm.
  - destruct (invalid_prompt (body_prompt (req_body req))) eqn:Hp.
    + exists 400; eexists. rewrite handler_invalid_prompt by assumption. auto.
    + cbn in H. exists 500; eexists.
      rewrite handler_missing_key by assumption. auto.
  - exists 405; eexists. rewrite handler_not_post by assumption. auto.
Qed.

(** The shape of a run that gets past the guards: a primary call, then
    either the response, or a fallback call and the response. *)
Lemma handler_accepted req env_key :
  rejected_early req env_key = false ->
  let key := key_text env_key in
  let prompt := body_prompt (req_body req) in
  exists out1 ext1,
    callGemini key MODEL_PRIMARY prompt up [] = (out1, ext1)
    /\ responses ext1 = []
    /\ (exists n : nat,
          fetch_urls ext1 = repeat (gemini_url MODEL_PRIMARY key) n
          /\ (1 <= n <= 4)%nat)
    /\ (forall u o r,
          In (EvFetch u o (Resolved r)) ext1 -> res_ok r = true ->
          out1 = Returned (payload_of r))
    /\ ((exists pre r,
           out1 = Returned (payload_of r) /\ res_ok r = true
           /\ ext1 = (pre ++ [EvFetch (gemini_url MODEL_PRIMARY key)
                                (gemini_options prompt) (Resolved r)])%list
           /\ handler req env_key up []
              = (Returned tt, (ext1 ++ [EvRespond 200 (payload_of r)])%list))
        \/ (exists e,
              out1 = Thrown e /\ is_transient (exn_status_or_0 e) = false
              /\ handler req env_key up []
                 = (Returned tt,
                    (ext1 ++ [EvRespond 500
                                (error_message_body (exn_text e))])%list))
        \/ (exists e out2 ext2,
              out1 = Thrown e /\ is_transient (exn_status_or_0 e) = true
              /\ callGemini key MODEL_FALLBACK prompt up ext1
                 = (out2, (ext1 ++ ext2)%list)
              /\ responses ext2 = []
              /\ (exists n : nat,
                    fetch_urls ext2 = repeat (gemini_url MODEL_FALLBACK key) n
                    /\ (1 <= n <= 4)%nat)
              /\ (forall u o r,
                    In (EvFetch u o (Resolved r)) ext2 -> res_ok r = true ->
                    out2 = Returned (payload_of r))
              /\ ((exists pre r,
                     out2 = Returned (payload_of r) /\ res_ok r = true
                     /\ ext2 = (pre ++ [EvFetch (gemini_url MODEL_FALLBACK key)
                                          (gemini_options prompt)
                                          (Resolved r)])%list
                     /\ handler req env_key up []
                        = (Returned tt,
                           ((ext1 ++ ext2) ++
                            [EvRespond 200 (payload_of r)])%list))
                  \/ (exists e2,
                        out2 = Thrown e2
                        /\ handler req env_key up []
                           = (Returned tt,
                              ((ext1 ++ ext2) ++
                               [EvRespond 500
                                  (error_message_body (exn_text e2))])%list))))).
Proof.
  intros Hvalid key prompt.
  rewrite (handler_calls up req env_key [] Hvalid). cbv zeta.
  fold key. fold prompt.
  destruct (callGemini_runs up key MODEL_PRIMARY prompt [])
    as (out1 & ext1 & Heq1 & Hresp1 & Hurls1 & Hend1 & Hret1 & Hok1).
  cbn [app] in Heq1. rewrite Heq1.
  exists out1, ext1. split; [reflexivity |].
  repeat (split; [assumption |]).
  destruct out1 as [d | e |]; [| | now contradiction Hend1].
  - left. destruct (Hret1 d eq_refl) as (pre & r & Hext & Hr & ->).
    exists pre, r. auto.
  - destruct (is_transient (exn_status_or_0 e)) eqn:Htrans.
    + right; right.
      destruct (callGemini_runs up key MODEL_FALLBACK prompt ext1)
        as (out2 & ext2 & Heq2 & Hresp2 & Hurls2 & Hend2 & Hret2 & Hok2).
      rewrite Heq2. exists e, out2, ext2.
      do 3 (split; [first [reflexivity | assumption] |]).
      repeat (split; [assumption |]).
      destruct out2 as [d | e2 |]; [| | now contradiction Hend2].
      * left. destruct (Hret2 d eq_refl) as (pre & r & Hext & Hr & ->).
        exists pre, r. auto.
      * right. exists e2. auto.
    + right; left. exists e. auto.
Qed.

End HandlerRuns.

(** C5.  Whatever the request and whatever the upstream does (answers of
    any status, bodies that are not JSON, rejected fetches), the handler
    returns normally, never with an exception, and it has written exactly
    one response, of one of these shapes: 200 with the payload of the last
    upstream response, which had a success status; 400 with
    [{error: "Missing or invalid prompt"}]; 405 with
    [{error: "Method not allowed"}]; 500 with
    [{error: "Missing GEMINI_API_KEY env var"}] or with
    [{error: {message: text}}] for a string [text]. *)
Theorem handler_answers_exactly_once {num : Type} {NUM : JsNumber num}
    (req : Request num) (env_key : option string) (up : Upstream num) :
  exists (code : Z) (body : JSON num) (tr : list (Event num)),
    run (handler req env_key) up = (Returned tt, tr)
    /\ responses tr = [(code, body)]
    /\ ((code = 200
         /\ exists pre u o r,
              tr = (pre ++ [EvFetch u o (Resolved r); EvRespond 200 body])%list
              /\ res_ok r = true /\ body = payload_of r)
        \/ (code = 400 /\ body = error_body "Missing or invalid prompt")
        \/ (code = 405 /\ body = error_body "Method not allowed")
        \/ (code = 500
            /\ (body = error_body "Missing GEMINI_API_KEY env var"
                \/ exists text, body = error_message_body text))).
Proof.
  unfold run. destruct (rejected_early req env_key) eqn:Hguard.
  - destruct (handler_rejected up req env_key [] Hguard)
      as (code & body & Heq & Hshape).
    exists code, body, [EvRespond code body].
    split; [exact Heq |]. split; [reflexivity |].
    destruct Hshape as [[-> ->] | [[-> ->] | [-> ->]]]; auto 6.
  - destruct (handler_accepted up req env_key Hguard)
      as (out1 & ext1 & _ & Hresp1 & _ & _ & Hcases).
    destruct Hcases
      as [(pre & r & _ & Hr & Hext & Heq)
         | [(e & _ & _ & Heq)
           | (e & out2 & ext2 & _ & _ & _ & Hresp2 & _ & _ & Hcases)]].
    + exists 200, (payload_of r). eexists. split; [exact Heq |].
      split; [now rewrite responses_app, Hresp1 |].
      left. split; [reflexivity |].
      exists pre, (gemini_url MODEL_PRIMARY (key_text env_key)),
        (gemini_options (body_prompt (req_body req))), r.
      rewrite Hext, <- app_assoc. auto.
    + exists 500, (error_message_body (exn_text e)). eexists.
      split; [exact Heq |].
      split; [now rewrite responses_app, Hresp1 |].
      do 3 right. split; [reflexivity |]. right. now eexists.
    + destruct Hcases as [(pre & r & _ & Hr & Hext & Heq) | (e2 & _ & Heq)].
      * exists 200, (payload_of r). eexists. split; [exact Heq |].
        split; [now rewrite !responses_app, Hresp1, Hresp2 |].
        left. split; [reflexivity |].
        exists (ext1 ++ pre)%list,
          (gemini_url MODEL_FALLBACK (key_text env_key)),
          (gemini_options (body_prompt (req_body req))), r.
        rewrite Hext, <- !app_assoc. auto.
      * exists 500, (error_message_body (exn_text e2)). eexists.
        split; [exact Heq |].
        split; [now rewrite !responses_app, Hresp1, Hresp2 |].
        do 3 right. split; [reflexivity |]. right. now eexists.
Qed.

(** C8.  Whenever an upstream call of a run is answered with a 2xx status,
    the handler's response is 200 with exactly the payload the transport
    read from that answer: the parsed JSON body itself, handed on without
    any change (a body that is not JSON having been read as the empty
    object, as the transport does). *)
Theorem success_payload_returned_unmodified {num : Type} {NUM : JsNumber num}
    (req : Request num) (env_key : option string) (up : Upstream num)
    (u : string) (o : FetchOptions) (r : Response num) :
  In (EvFetch u o (Resolved r)) (snd (run (handler req env_key) up)) ->
  res_ok r = true ->
  responses (snd (run (handler req env_key) up)) = [(200, payload_of r)]
  /\ forall d, res_body r = BodyJson d ->
       responses (snd (run (handler req env_key) up)) = [(200, d)].
Proof.
  intros Hin Hok.
  assert (Hmain : responses (snd (run (handler req env_key) up))
                  = [(200, payload_of r)]).
  { revert Hin. unfold run.
    destruct (rejected_early req env_key) eqn:Hguard.
    - destruct (handler_rejected up req env_key [] Hguard)
        as (code & body & -> & _).
      cbn. intros [Habs | []]. discriminate.
    - destruct (handler_accepted up req env_key Hguard)
        as (out1 & ext1 & _ & Hresp1 & _ & Hok1 & Hcases).
      destruct Hcases
        as [(pre & r1 & Hout1 & _ & _ & ->)
           | [(e & Hout1 & _ & ->)
             | (e & out2 & ext2 & Hout1 & _ & _ & Hresp2 & _ & Hok2 & Hcases)]].
      + cbn [snd]. intros Hin. apply in_app_or in Hin as [Hin | Hin].
        * pose proof (Hok1 _ _ _ Hin Hok) as Heq. rewrite Hout1 in Heq.
          injection Heq as ->.
          now rewrite responses_app, Hresp1.
        * destruct Hin as [Habs | []]. discriminate.
      + cbn [snd]. intros Hin. apply in_app_or in Hin as [Hin | Hin].
        * pose proof (Hok1 _ _ _ Hin Hok) as Heq. rewrite Hout1 in Heq.
          discriminate.
        * destruct Hin as [Habs | []]. discriminate.
      + assert (Hnot1 : ~ In (EvFetch u o (Resolved r)) ext1).
        { intros Hin. pose proof (Hok1 _ _ _ Hin Hok) as Heq.
          rewrite Hout1 in Heq. discriminate. }
        destruct Hcases as [(pre & r2 & Hout2 & _ & _ & ->) | (e2 & Hout2 & ->)];
          cbn [snd]; intros Hin;
          apply in_app_or in Hin as [Hin | [Habs | []]];
          try discriminate;
          apply in_app_or in Hin as [Hin | Hin]; try contradiction;
          pose proof (Hok2 _ _ _ Hin Hok) as Heq; rewrite Hout2 in Heq.
        * injection Heq as ->.
          now rewrite !responses_app, Hresp1, Hresp2.
        * discriminate. }
  split; [exact Hmain |].
  intros d Hd. rewrite Hmain. unfold payload_of. now rewrite Hd.
Qed.

Lemma success_payload_returned_unmodified_witness :
  In (EvFetch Sample.fallback_url Sample.hi_options
        (Resolved Sample.answer_200))
     (snd (run (handler Sample.post_hi (Some "k")) Sample.limited_then_200))
  /\ res_ok Sample.answer_200 = true
  /\ responses (snd (run (handler Sample.post_hi (Some "k"))
                       Sample.limited_then_200))
     = [(200, Sample.answer_body)].
Proof.
  assert (Hin : In (EvFetch Sample.fallback_url Sample.hi_options
                      (Resolved Sample.answer_200))
                  (snd (run (handler Sample.post_hi (Some "k"))
                          Sample.limited_then_200))).
  { vm_compute. do 7 right. left. reflexivity. }
  split; [exact Hin |]. split; [reflexivity |].
  exact (proj2 (success_payload_returned_unmodified Sample.post_hi (Some "k")
                  Sample.limited_then_200 Sample.fallback_url
                  Sample.hi_options Sample.answer_200 Hin eq_refl)
           Sample.answer_body eq_refl).
Defined.

(** C7, refuted as stated.  A valid request against a provider that keeps
    answering 429 makes eight outbound calls (four attempts on each target),
    and a GET request makes none: the number of outbound calls is not always
    one or two. *)
Lemma outbound_calls_not_one_or_two :
  length (fetch_urls (snd (run (handler Sample.post_hi (Some "k"))
                             Sample.always_429))) = 8%nat
  /\ length (fetch_urls (snd (run (handler Sample.get_hi (Some "k"))
                                Sample.always_200))) = 0%nat
  /\ ~ (forall (req : Request Z) (env_key : option string) (up : Upstream Z),
          length (fetch_urls (snd (run (handler req env_key) up))) = 1%nat
          \/ length (fetch_urls (snd (run (handler req env_key) up))) = 2%nat).
Proof.
  split; [reflexivity |]. split; [reflexivity |].
  intros H.
  destruct (H Sample.get_hi (Some "k") Sample.always_200) as [H0 | H0];
    vm_compute in H0; discriminate.
Qed.

(** C7, amended.  For every inbound request the handler calls the retry
    transport at most twice, first for the primary target and then possibly
    for the fallback target, and each such call issues between one and four
    outbound HTTP calls to its own URL.  A request stopped by a guard makes
    no outbound call; any other request makes 1 to 4 calls to the primary
    URL followed by 0 to 4 calls to the fallback URL, so at most eight.
    Besides those calls and the back-off sleeps between them, the run
    writes one response and nothing else. *)
Theorem outbound_calls_per_request {num : Type} {NUM : JsNumber num}
    (req : Request num) (env_key : option string) (up : Upstream num) :
  let tr := snd (run (handler req env_key) up) in
  let key := key_text env_key in
  exists p f : nat,
    fetch_urls tr
    = (repeat (gemini_url MODEL_PRIMARY key) p ++
       repeat (gemini_url MODEL_FALLBACK key) f)%list
    /\ (if rejected_early req env_key
        then p = 0%nat /\ f = 0%nat
        else (1 <= p <= 4)%nat /\ (f <= 4)%nat)
    /\ (length (fetch_urls tr) <= 8)%nat
    /\ length (responses tr) = 1%nat.
Proof.
  cbv zeta. unfold run.
  destruct (rejected_early req env_key) eqn:Hguard.
  - destruct (handler_rejected up req env_key [] Hguard)
      as (code & body & -> & _).
    exists 0%nat, 0%nat. cbn. repeat split; lia.
  - destruct (handler_accepted up req env_key Hguard)
      as (out1 & ext1 & _ & Hresp1 & (p & Hurls1 & Hp) & _ & Hcases).
    destruct Hcases
      as [(pre & r & _ & _ & _ & ->)
         | [(e & _ & _ & ->)
           | (e & out2 & ext2 & _ & _ & _ & Hresp2 & (f & Hurls2 & Hf) & _
              & Hcases)]].
    + exists p, 0%nat. cbn [snd].
      rewrite fetch_urls_app, responses_app, Hurls1, Hresp1. cbn.
      rewrite app_nil_r, repeat_length. repeat split; lia.
    + exists p, 0%nat. cbn [snd].
      rewrite fetch_urls_app, responses_app, Hurls1, Hresp1. cbn.
      rewrite app_nil_r, repeat_length. repeat split; lia.
    + exists p, f.
      destruct Hcases as [(pre & r & _ & _ & _ & ->) | (e2 & _ & ->)];
        cbn [snd];
        rewrite !fetch_urls_app, !responses_app, Hurls1, Hurls2, Hresp1, Hresp2;
        cbn; rewrite app_nil_r, length_app, !repeat_length;
        repeat split; lia.
Qed.

(** C1, at the failing input.  The primary target answers 429 to every
    attempt, with the body [{error: {toString: null}}].  The handler makes
    one call on the primary target and sleeps 1000 ms; then building the
    error of the retried attempt throws a [TypeError], which has no status:
    the remaining three attempts are not made, the fallback target is not
    called, and the response is 500 with the message of the [TypeError]. *)
Lemma no_fallback_after_unprintable_429 :
  run (handler Sample.post_hi (Some "k")) Sample.always_shadowing_429
  = (Returned tt,
     [EvFetch Sample.primary_url Sample.hi_options
        (Resolved Sample.shadowing_429);
      EvSleep 1000;
      EvRespond 500
        (error_message_body "Cannot convert object to primitive value")])
  /\ fetch_urls (snd (run (handler Sample.post_hi (Some "k"))
                        Sample.always_shadowing_429))
     = [Sample.primary_url].
Proof.
  split; reflexivity.
Qed.

(** ** The two variants side by side *)

Section Variants.
Context {num : Type} {NUM : JsNumber num}.
Variable up : Upstream num.

(** The configured handler at the constants of [api/generate.js] is the
    exported handler. *)
Lemma configured_handler_canonical req env_key :
  configured_handler 4 MODEL_PRIMARY (Some MODEL_FALLBACK) req env_key
  = handler req env_key.
Proof.
  reflexivity.
Qed.

(** The single-call variant calls the URL of the fallback model. *)
Lemma simple_url (key : string) :
  "https://generativelanguage.googleapis.com/v1beta/models/gemini-2.0-flash:generateContent?key="
  ++ key
  = gemini_url MODEL_FALLBACK key.
Proof.
  reflexivity.
Qed.

(** Both variants stop the same requests with the same response. *)
Lemma variants_agree_when_rejected req env_key maxAttempts primary fallback :
  rejected_early req env_key = true ->
  run (simple_handler req env_key) up
  = run (configured_handler maxAttempts primary fallback req env_key) up.
Proof.
  unfold rejected_early, run, simple_handler, configured_handler, try_catch.
  destruct (req_method req =? "POST")%string; [| reflexivity].
  cbn [negb orb]. cbv zeta.
  destruct (invalid_prompt (body_prompt (req_body req))); [reflexivity |].
  cbn [orb]. now intros ->.
Qed.

(** What the single-call variant does with the answer to its call. *)
Lemma simple_handler_run req env_key :
  rejected_early req env_key = false ->
  let url := gemini_url MODEL_FALLBACK (key_text env_key) in
  let options := gemini_options (body_prompt (req_body req)) in
  run (simple_handler req env_key) up
  = match up [] url options with
    | Rejected e =>
        (Returned tt,
         [EvFetch url options (Rejected e);
          EvRespond 500 (error_body (String_exn e))])
    | Resolved r =>
        match res_body r with
        | BodyJson d =>
            (Returned tt,
             [EvFetch url options (Resolved r); EvRespond (res_status r) d])
        | BodyInvalid e =>
            (Returned tt,
             [EvFetch url options (Resolved r);
              EvRespond 500 (error_body (String_exn e))])
        end
    end.
Proof.
  intros Hvalid. apply rejected_early_false in Hvalid as (Hm & Hp & Hk).
  cbv zeta. unfold run, simple_handler. rewrite Hm. cbn [negb]. cbv zeta.
  rewrite Hp, Hk. rewrite simple_url.
  unfold try_catch, bind, fetch, gemini_options.
  destruct (up [] _ _) as [r | e]; [| reflexivity].
  unfold res_json. destruct (res_body r); reflexivity.
Qed.

(** What the canonical handler does under a budget of one attempt and no
    fallback target. *)
Lemma degenerate_handler_run req env_key primary :
  rejected_early req env_key = false ->
  let url := gemini_url primary (key_text env_key) in
  let options := gemini_options (body_prompt (req_body req)) in
  run (configured_handler 1 primary None req env_key) up
  = match up [] url options with
    | Rejected e =>
        (Returned tt,
         [EvFetch url options (Rejected e);
          EvRespond 500 (error_message_body (exn_text e))])
    | Resolved r =>
        if res_ok r then
          (Returned tt,
           [EvFetch url options (Resolved r); EvRespond 200 (payload_of r)])
        else
          (Returned tt,
           [EvFetch url options (Resolved r);
            EvRespond 500 (error_message_body (failure_text r))])
    end.
Proof.
  intros Hvalid. apply rejected_early_false in Hvalid as (Hm & Hp & Hk).
  cbv zeta. unfold run, configured_handler. rewrite Hm. cbn [negb]. cbv zeta.
  rewrite Hp, Hk.
  unfold try_catch at 1 2, bind at 1, configured_call, bind at 1.
  rewrite fetchWithRetry_step by lia.
  destruct (up [] _ _) as [r | e].
  - cbv zeta. destruct (res_ok r); [reflexivity |].
    rewrite andb_false_r.
    destruct (is_transient (exn_status_or_0 (failure_of r)));
      unfold throw; now rewrite exn_text_failure.
  - destruct (is_transient (exn_status_or_0 e)); reflexivity.
Qed.

(** A message cannot contain itself behind the status prefix, so no
    upstream error body equals the error body built from it. *)
Lemma error_body_is_not_its_own_report (d : JSON num) :
  d <> error_message_body (failure_text (mkResponse 500 (BodyJson d))).
Proof.
  intros Hd.
  remember (failure_text (mkResponse 500 (BodyJson d))) as text eqn:Htext.
  assert (Hne : (text =? EmptyString)%string = false).
  { rewrite Htext. unfold failure_text.
    destruct (status_msg _ _) as [t |] eqn:Hmsg; [| reflexivity].
    exact (status_msg_nonempty _ _ _ Hmsg). }
  unfold failure_text, payload_of in Htext.
  cbn [res_body res_status] in Htext. rewrite Hd in Htext.
  unfold error_msg, error_message_body, js_or in Htext.
  cbn [opt_get assoc String.eqb Ascii.eqb Bool.eqb ToBoolean] in Htext.
  rewrite Hne in Htext. cbn [negb ToBoolean] in Htext. rewrite Hne in Htext.
  cbn [negb] in Htext. unfold status_msg in Htext.
  change (show_Z 500) with "500" in Htext.
  cbn [ToString_val ToString append] in Htext.
  apply (f_equal String.length) in Htext. cbn [String.length] in Htext.
  lia.
Qed.

(** Past the guards the two variants agree only on a plain success. *)
Lemma variants_differ_otherwise req env_key :
  rejected_early req env_key = false ->
  run (simple_handler req env_key) up
  = run (configured_handler 1 MODEL_FALLBACK None req env_key) up ->
  exists d,
    up [] (gemini_url MODEL_FALLBACK (key_text env_key))
      (gemini_options (body_prompt (req_body req)))
    = Resolved (mkResponse 200 (BodyJson d)).
Proof.
  intros Hguard.
  rewrite (simple_handler_run req env_key Hguard).
  rewrite (degenerate_handler_run req env_key MODEL_FALLBACK Hguard).
  cbv zeta.
  destruct (up [] _ _) as [[status [d | e']] | e].
  - unfold payload_of. cbn [res_body res_status].
    destruct (res_ok _).
    + intros Heq. injection Heq as ->. now exists d.
    + intros Heq. injection Heq as -> Hd.
      now apply error_body_is_not_its_own_report in Hd.
  - cbn [res_body res_status]. destruct (res_ok _); discriminate.
  - discriminate.
Qed.

End Variants.

(** C3, refuted as stated.  Let the provider answer 400 with
    [{error: {message: "bad"}}].  The single-call variant passes the status
    and the body through, answering 400 with that body; the canonical
    handler with one attempt and no fallback answers 500 with
    [{error: {message: "400: bad"}}], whichever model it targets.  So no
    choice of target makes the two produce the same responses. *)
Lemma simple_variant_is_not_the_degenerate_handler :
  responses (snd (run (simple_handler Sample.post_hi (Some "k"))
                    Sample.always_400))
  = [(400, Sample.bad_body)]
  /\ responses (snd (run (configured_handler 1 MODEL_FALLBACK None
                            Sample.post_hi (Some "k"))
                       Sample.always_400))
     = [(500, error_message_body "400: bad")]
  /\ ~ (exists primary : string,
          forall (req : Request Z) (env_key : option string) (up : Upstream Z),
            responses (snd (run (simple_handler req env_key) up))
            = responses (snd (run (configured_handler 1 primary None
                                     req env_key) up))).
Proof.
  split; [reflexivity |]. split; [reflexivity |].
  intros (primary & H).
  specialize (H Sample.post_hi (Some "k") Sample.always_400).
  rewrite (simple_handler_run Sample.always_400 Sample.post_hi (Some "k")
             eq_refl) in H.
  rewrite (degenerate_handler_run Sample.always_400 Sample.post_hi (Some "k")
             primary eq_refl) in H.
  cbn in H. discriminate.
Qed.

(** C3, amended.  The single-call variant and the canonical handler
    configured with one attempt, the [gemini-2.0-flash] target and no
    fallback have the same run (the same outbound call and the same
    response) exactly when the request is stopped by a guard or the upstream
    answers the call with status 200 and a JSON body.  On every other
    upstream behaviour they differ: the single-call variant passes the
    upstream status and body through and reports a thrown error as
    [{error: String(e)}]. *)
Theorem simple_variant_agrees_exactly_on_plain_success
    {num : Type} {NUM : JsNumber num}
    (req : Request num) (env_key : option string) (up : Upstream num) :
  (rejected_early req env_key = true
   \/ exists d,
        up [] (gemini_url MODEL_FALLBACK (key_text env_key))
          (gemini_options (body_prompt (req_body req)))
        = Resolved (mkResponse 200 (BodyJson d)))
  <-> run (simple_handler req env_key) up
      = run (configured_handler 1 MODEL_FALLBACK None req env_key) up.
Proof.
  destruct (rejected_early req env_key) eqn:Hguard.
  - split; [intros _ | now left].
    now apply variants_agree_when_rejected.
  - split.
    + intros [Habs | (d & Hup)]; [discriminate |].
      rewrite (simple_handler_run up req env_key Hguard).
      rewrite (degenerate_handler_run up req env_key MODEL_FALLBACK Hguard).
      cbv zeta. rewrite Hup. reflexivity.
    + intros Heq. right.
      now apply (variants_differ_otherwise up req env_key Hguard).
Qed.

Lemma simple_variant_agrees_exactly_on_plain_success_witness :
  Sample.always_200 [] (gemini_url MODEL_FALLBACK "k") Sample.hi_options
  = Resolved (mkResponse 200 (BodyJson Sample.answer_body))
  /\ run (simple_handler Sample.post_hi (Some "k")) Sample.always_200
     = run (configured_handler 1 MODEL_FALLBACK None Sample.post_hi (Some "k"))
         Sample.always_200.
Proof.
  split; [reflexivity |].
  apply (proj1 (simple_variant_agrees_exactly_on_plain_success
                  Sample.post_hi (Some "k") Sample.always_200)).
  right. exists Sample.answer_body. reflexivity.
Defined.

(** * Further properties of the code *)

(** ** More facts about every run of the transport *)

Section AttemptsShape.
Context {num : Type} {NUM : JsNumber num}.
Variable url : string.
Variable options : FetchOptions.
Variable maxAttempts : Z.

Local Abbreviation call_of := (attempts (num := num) url options maxAttempts).

(** Every call of a run goes to the same URL with the same options. *)
Lemma attempts_same_call a lastErr out ext u o x :
  call_of a lastErr out ext ->
  In (EvFetch u o x) ext -> u = url /\ o = options.
Proof.
  induction 1 as [a lastErr Hgt | a lastErr e Hle | a lastErr r Hle Hok
                 | a lastErr r Hle Hok Hno
                 | a lastErr r text out ext Hle Hok Hretry Hmsg Hrun IH
                 | a lastErr r Hle Hok Hretry Hmsg];
    cbn; intros Hin.
  - contradiction.
  - destruct Hin as [Heq | []]. now injection Heq as <- <- _.
  - destruct Hin as [Heq | []]. now injection Heq as <- <- _.
  - destruct Hin as [Heq | []]. now injection Heq as <- <- _.
  - destruct Hin as [Heq | [Heq | Hin]]; [| discriminate | auto].
    now injection Heq as <- <- _.
  - destruct Hin as [Heq | [Heq | []]]; [| discriminate].
    now injection Heq as <- <- _.
Qed.

(** The waits double from one retry to the next, and there are fewer of
    them than attempts left in the budget. *)
Lemma attempts_schedule a lastErr out ext :
  call_of a lastErr out ext ->
  exists j : nat,
    sleeps ext
    = map (fun i => 1000 * 2 ^ (a - 1 + Z.of_nat i)) (seq 0 j)
    /\ (j <= Z.to_nat (maxAttempts - a))%nat.
Proof.
  induction 1 as [a lastErr Hgt | a lastErr e Hle | a lastErr r Hle Hok
                 | a lastErr r Hle Hok Hno
                 | a lastErr r text out ext Hle Hok Hretry Hmsg Hrun IH
                 | a lastErr r Hle Hok Hretry Hmsg].
  - exists 0%nat. cbn. repeat split; lia.
  - exists 0%nat. cbn. repeat split; lia.
  - exists 0%nat. cbn. repeat split; lia.
  - exists 0%nat. cbn. repeat split; lia.
  - apply andb_true_iff in Hretry as [_ Hlt]. apply Z.ltb_lt in Hlt.
    destruct IH as (j & Hsl & Hj).
    exists (S j). split.
    + cbn [sleeps seq map]. rewrite Hsl, <- seq_shift, map_map.
      f_equal; [f_equal; f_equal; lia |].
      apply map_ext. intros i. f_equal. f_equal. lia.
    + lia.
  - apply andb_true_iff in Hretry as [_ Hlt]. apply Z.ltb_lt in Hlt.
    exists 1%nat. split; [| lia].
    cbn [sleeps seq map].
    replace (a - 1 + Z.of_nat 0) with (a - 1) by lia. reflexivity.
Qed.

(** A run is a row of retried answers, each followed by its back-off sleep,
    and then one last call; the last call is missing only past the budget,
    where nothing happens, and when the call is aborted after a sleep by
    the [TypeError] of an error that cannot be built. *)
Lemma attempts_alternate a lastErr out ext :
  call_of a lastErr out ext ->
  exists rs tail,
    ext = (retried url options a rs ++ tail)%list
    /\ forallb (fun r => is_transient (res_status r)) rs = true
    /\ ((tail = []
         /\ (maxAttempts < a /\ rs = []
             \/ out = Thrown type_error /\ rs <> []))
        \/ exists x, tail = [EvFetch url options x])
    /\ (a <= maxAttempts ->
        a + Z.of_nat (length rs) + Z.of_nat (length tail) <= maxAttempts + 1).
Proof.
  induction 1 as [a lastErr Hgt | a lastErr e Hle | a lastErr r Hle Hok
                 | a lastErr r Hle Hok Hno
                 | a lastErr r text out ext Hle Hok Hretry Hmsg Hrun IH
                 | a lastErr r Hle Hok Hretry Hmsg].
  - exists [], []. cbn. repeat split; auto; lia.
  - exists [], [EvFetch url options (Rejected e)]. cbn.
    repeat split; eauto; lia.
  - exists [], [EvFetch url options (Resolved r)]. cbn.
    repeat split; eauto; lia.
  - exists [], [EvFetch url options (Resolved r)]. cbn.
    repeat split; eauto; lia.
  - apply andb_true_iff in Hretry as [Hr Hlt]. apply Z.ltb_lt in Hlt.
    destruct IH as (rs & tail & -> & Hall & Htail & Hlen).
    exists (r :: rs), tail. cbn [retried forallb length app].
    rewrite Hr, Hall. split; [reflexivity |]. split; [reflexivity |].
    split.
    + destruct Htail as [(-> & [(Habs & _) | (-> & _)]) | Hx];
        [lia | | now right].
      left. split; [reflexivity |]. right. split; [reflexivity |].
      discriminate.
    + intros _. specialize (Hlen ltac:(lia)). lia.
  - apply andb_true_iff in Hretry as [Hr Hlt]. apply Z.ltb_lt in Hlt.
    exists [r], []. cbn [retried forallb length app]. rewrite Hr.
    split; [reflexivity |]. split; [reflexivity |]. split.
    + left. split; [reflexivity |]. right. split; [reflexivity |].
      discriminate.
    + cbn. lia.
Qed.

(** Within the budget, a failure is the rejection of the last fetch, or
    the failure thrown on the last response, which had no success status,
    or the [TypeError] that aborts a retry after its sleep. *)
Lemma attempts_thrown_cases a lastErr e ext :
  a <= maxAttempts ->
  call_of a lastErr (Thrown e) ext ->
  exists pre,
    ext = (pre ++ [EvFetch url options (Rejected e)])%list
    \/ (exists r,
          ext = (pre ++ [EvFetch url options (Resolved r)])%list
          /\ res_ok r = false /\ e = failure_of r)
    \/ (exists r w,
          ext = (pre ++ [EvFetch url options (Resolved r); EvSleep w])%list
          /\ is_transient (res_status r) = true
          /\ converts r = false /\ e = type_error).
Proof.
  intros Ha Hrun. remember (Thrown e) as out eqn:Hout. revert Ha.
  induction Hrun as [a lastErr Hgt | a lastErr e' Hle | a lastErr r Hle Hok
                 | a lastErr r Hle Hok Hno
                 | a lastErr r text out ext Hle Hok Hretry Hmsg Hrun IH
                 | a lastErr r Hle Hok Hretry Hmsg];
    intros Ha.
  - lia.
  - injection Hout as ->. exists []. now left.
  - discriminate.
  - injection Hout as <-. exists []. right; left. now exists r.
  - apply andb_true_iff in Hretry as [_ Hlt]. apply Z.ltb_lt in Hlt.
    destruct (IH Hout) as (pre & Hcases); [lia |].
    exists (EvFetch url options (Resolved r)
            :: EvSleep (1000 * 2 ^ (a - 1)) :: pre).
    destruct Hcases
      as [-> | [(r' & -> & Hr' & He) | (r' & w & -> & Hr' & Hc & He)]].
    + now left.
    + right; left. now exists r'.
    + right; right. now exists r', w.
  - injection Hout as <-. exists []. right; right.
    apply andb_true_iff in Hretry as [Hr _].
    exists r, (1000 * 2 ^ (a - 1)). unfold converts. rewrite Hmsg. auto.
Qed.

(** A failure that carries a transient status comes from a rejected fetch,
    or ends a run in which every attempt left in the budget was made and
    was answered 429 or 503. *)
Lemma attempts_transient_failure a lastErr e ext :
  a <= maxAttempts ->
  call_of a lastErr (Thrown e) ext ->
  is_transient (exn_status_or_0 e) = true ->
  let answers := fetch_results url ext in
  (exists pre, answers = (pre ++ [Rejected e])%list)
  \/ (length answers = Z.to_nat (maxAttempts + 1 - a)
      /\ forallb transient_answer answers = true).
Proof.
  intros Ha Hrun. remember (Thrown e) as out eqn:Hout. revert Ha.
  induction Hrun as [a lastErr Hgt | a lastErr e' Hle | a lastErr r Hle Hok
                 | a lastErr r Hle Hok Hno
                 | a lastErr r text out ext Hle Hok Hretry Hmsg Hrun IH
                 | a lastErr r Hle Hok Hretry Hmsg];
    intros Ha Htrans; cbv zeta; cbn [fetch_results];
    rewrite ?String.eqb_refl.
  - lia.
  - injection Hout as ->. left. now exists [].
  - discriminate.
  - injection Hout as <-. right.
    rewrite exn_status_failure in Htrans.
    destruct (converts r); [| discriminate].
    rewrite Htrans in Hno. cbn [andb] in Hno. apply Z.ltb_ge in Hno.
    cbn. rewrite Htrans. split; [lia | reflexivity].
  - apply andb_true_iff in Hretry as [Hr Hlt]. apply Z.ltb_lt in Hlt.
    destruct (IH Hout) as [(pre & Hpre) | (Hlen & Hall)]; [lia | assumption | |].
    + left. exists (Resolved r :: pre). now rewrite Hpre.
    + right. cbn [length forallb transient_answer].
      rewrite Hlen, Hr, Hall. split; [lia | reflexivity].
  - injection Hout as <-. discriminate.
Qed.

End AttemptsShape.

(** ** The guards of the handler *)

Section Guards.
Context {num : Type} {NUM : JsNumber num}.

(** A POST with a non-empty string prompt and a non-empty key passes the
    three guards. *)
Lemma accepted_request (req : Request num) (env_key : option string)
    (k s : string) :
  req_method req = "POST" ->
  body_prompt (req_body req) = Some (JStr s) ->
  s <> EmptyString ->
  env_key = Some k ->
  k <> EmptyString ->
  rejected_early req env_key = false.
Proof.
  intros Hm Hs Hne Hk Hkne. unfold rejected_early.
  apply String.eqb_eq in Hm. rewrite Hm.
  replace (invalid_prompt (body_prompt (req_body req))) with false
    by (symmetry; apply invalid_prompt_false; now exists s).
  replace (missing_key env_key) with false
    by (symmetry; apply missing_key_false; now exists k).
  reflexivity.
Qed.

(** Passing the guards, spelled out. *)
Lemma rejected_early_false_iff (req : Request num) (env_key : option string) :
  rejected_early req env_key = false <->
  req_method req = "POST"
  /\ (exists s, body_prompt (req_body req) = Some (JStr s) /\ s <> EmptyString)
  /\ (exists k, env_key = Some k /\ k <> EmptyString).
Proof.
  split.
  - intros H. apply rejected_early_false in H as (Hm & Hp & Hk).
    apply String.eqb_eq in Hm. apply invalid_prompt_false in Hp.
    apply missing_key_false in Hk. auto.
  - intros (Hm & (s & Hs & Hne) & (k & Hk & Hkne)).
    now apply (accepted_request req env_key k s).
Qed.

End Guards.

(** X1.  A request of any method other than [POST] (the comparison is exact,
    so also [post] or [GET]) is answered 405 with
    [{error: "Method not allowed"}] whatever its body and whatever the key,
    and nothing else happens: no outbound call is made. *)
Theorem other_methods_rejected {num : Type} {NUM : JsNumber num}
    (req : Request num) (env_key : option string) (up : Upstream num) :
  req_method req <> "POST" ->
  run (handler req env_key) up
  = (Returned tt, [EvRespond 405 (error_body "Method not allowed")]).
Proof.
  intros Hm. apply String.eqb_neq in Hm.
  unfold run. now rewrite handler_not_post.
Qed.

Lemma other_methods_rejected_witness :
  req_method Sample.get_hi <> "POST"
  /\ run (handler Sample.get_hi None) Sample.always_200
     = (Returned tt, [EvRespond 405 (error_body "Method not allowed")]).
Proof.
  split; [discriminate |].
  apply (other_methods_rejected Sample.get_hi None Sample.always_200).
  discriminate.
Defined.

(** X2.  The handler reaches the upstream provider exactly for the requests
    that are a POST whose body carries a non-empty string [prompt], while
    the key is set and not empty; for every other request no outbound call
    is made. *)
Theorem upstream_called_exactly_when_accepted
    {num : Type} {NUM : JsNumber num}
    (req : Request num) (env_key : option string) (up : Upstream num) :
  fetch_urls (snd (run (handler req env_key) up)) <> []
  <-> req_method req = "POST"
      /\ (exists s, body_prompt (req_body req) = Some (JStr s)
                    /\ s <> EmptyString)
      /\ (exists k, env_key = Some k /\ k <> EmptyString).
Proof.
  rewrite <- rejected_early_false_iff. unfold run.
  destruct (rejected_early req env_key) eqn:Hguard.
  - destruct (handler_rejected up req env_key [] Hguard)
      as (code & body & -> & _).
    cbn. split; [intros H; now contradiction H | discriminate].
  - split; [reflexivity | intros _].
    destruct (handler_accepted up req env_key Hguard)
      as (out1 & ext1 & _ & _ & (n & Hurls & Hn) & _ & Hcases).
    assert (Hne : forall rest, fetch_urls (ext1 ++ rest) <> []).
    { intros rest. rewrite fetch_urls_app, Hurls.
      destruct n as [| n]; [lia | discriminate]. }
    destruct Hcases
      as [(pre & r & _ & _ & _ & ->)
         | [(e & _ & _ & ->)
           | (e & out2 & ext2 & _ & _ & _ & _ & _ & _ & Hcases)]];
      cbn [snd]; auto.
    destruct Hcases as [(pre & r & _ & _ & _ & ->) | (e2 & _ & ->)];
      cbn [snd]; rewrite <- app_assoc; auto.
Qed.

Lemma upstream_called_exactly_when_accepted_witness :
  req_method Sample.post_hi = "POST"
  /\ fetch_urls (snd (run (handler Sample.post_hi (Some "k"))
                        Sample.always_200))
     <> [].
Proof.
  split; [reflexivity |].
  apply (proj2 (upstream_called_exactly_when_accepted Sample.post_hi
                  (Some "k") Sample.always_200)).
  split; [reflexivity |]. split.
  - exists "hi". split; [reflexivity | discriminate].
  - exists "k". split; [reflexivity | discriminate].
Defined.

(** ** Retrying until an answer comes *)

Section RetryRuns.
Context {num : Type} {NUM : JsNumber num}.
Variable up : Upstream num.
Variable url : string.
Variable options : FetchOptions.
Variable maxAttempts : Z.

(** A status of 429 or 503 is not a success status. *)
Lemma transient_not_ok (r : Response num) :
  is_transient (res_status r) = true -> res_ok r = false.
Proof.
  unfold is_transient, res_ok. intros H.
  apply orb_true_iff in H as [H | H]; apply Z.eqb_eq in H; now rewrite H.
Qed.

(** A row of transient answers that fits in the budget, and whose error
    messages can each be built, is retried answer by answer, and the
    success that follows it is returned. *)
Lemma loop_retried (rs : list (Response num)) (r_ok : Response num) :
  forall (a : Z) (lastErr : option (Exn num)) (tr : list (Event num))
         (fuel : nat),
    a + Z.of_nat (length rs) <= maxAttempts ->
    (Z.to_nat (maxAttempts + 1 - a) < fuel)%nat ->
    forallb (fun r => is_transient (res_status r)) rs = true ->
    forallb converts rs = true ->
    res_ok r_ok = true ->
    (forall i r,
        nth_error (rs ++ [r_ok]) i = Some r ->
        up (tr ++ retried url options a (firstn i rs))%list url options
        = Resolved r) ->
    fetchWithRetry_loop fuel url options maxAttempts a lastErr up tr
    = (Returned (r_ok, payload_of r_ok),
       (tr ++ retried url options a rs
           ++ [EvFetch url options (Resolved r_ok)])%list).
Proof.
  induction rs as [| r rs IH];
    intros a lastErr tr fuel Hfit Hfuel Hall Hconv Hok Hup;
    (destruct fuel as [| fuel]; [lia |]).
  - rewrite loop_step by (cbn in Hfit; lia).
    specialize (Hup 0%nat r_ok eq_refl). cbn in Hup. rewrite app_nil_r in Hup.
    rewrite Hup. cbv zeta. now rewrite Hok.
  - cbn [length] in Hfit. cbn [forallb] in Hall, Hconv.
    apply andb_true_iff in Hall as [Hr Hall].
    apply andb_true_iff in Hconv as [Hc Hconv].
    rewrite loop_step by lia.
    pose proof (Hup 0%nat r eq_refl) as Hup0. cbn in Hup0.
    rewrite app_nil_r in Hup0. rewrite Hup0. cbv zeta.
    rewrite (transient_not_ok r Hr), Hr.
    replace (a <? maxAttempts) with true by (symmetry; apply Z.ltb_lt; lia).
    cbn [andb]. unfold converts in Hc.
    destruct (status_msg (res_status r) (error_msg (payload_of r)))
      as [text |]; [| discriminate].
    rewrite (IH (a + 1)); try assumption; try lia.
    + cbn [retried]. f_equal. rewrite <- !app_assoc. reflexivity.
    + intros i r' Hi.
      specialize (Hup (S i) r' Hi). cbn [firstn retried] in Hup.
      rewrite <- Hup. f_equal. rewrite <- !app_assoc. reflexivity.
Qed.

(** The i-th element of a list given by its index function. *)
Lemma nth_error_map_seq (f : nat -> Z) (j s i : nat) (w : Z) :
  nth_error (map f (seq s j)) i = Some w -> w = f (s + i)%nat.
Proof.
  revert s i. induction j as [| j IH]; intros s i.
  - now destruct i.
  - destruct i as [| i]; cbn.
    + intros H. injection H as <-. f_equal. lia.
    + intros H. apply IH in H. rewrite H. f_equal. lia.
Qed.

End RetryRuns.

(** X3.  The retry transport keeps retrying through a row of 429 and 503
    answers that is shorter than its budget, as long as the message
    extracted from each of them converts to a string: when those answers
    are followed by one with a success status, the call returns the payload
    of that answer, having made one call per answer and slept after each
    retried one, and nothing else. *)
Theorem retry_until_success {num : Type} {NUM : JsNumber num}
    (up : Upstream num) (url : string) (options : FetchOptions)
    (maxAttempts : Z) (tr : list (Event num))
    (rs : list (Response num)) (r_ok : Response num) :
  Z.of_nat (length rs) < maxAttempts ->
  forallb (fun r => is_transient (res_status r)) rs = true ->
  forallb converts rs = true ->
  res_ok r_ok = true ->
  (forall i r,
      nth_error (rs ++ [r_ok]) i = Some r ->
      up (tr ++ retried url options 1 (firstn i rs))%list url options
      = Resolved r) ->
  fetchWithRetry url options maxAttempts up tr
  = (Returned (r_ok, payload_of r_ok),
     (tr ++ retried url options 1 rs
         ++ [EvFetch url options (Resolved r_ok)])%list).
Proof.
  intros Hlen Hall Hconv Hok Hup. unfold fetchWithRetry.
  apply loop_retried; try assumption; lia.
Qed.

Lemma retry_until_success_witness :
  run (fetchWithRetry Sample.primary_url Sample.hi_options 4)
    Scenario.recovers_on_third
  = (Returned (Sample.answer_200, Sample.answer_body),
     [EvFetch Sample.primary_url Sample.hi_options (Resolved Sample.quota_429);
      EvSleep 1000;
      EvFetch Sample.primary_url Sample.hi_options
        (Resolved Scenario.overloaded_503);
      EvSleep 2000;
      EvFetch Sample.primary_url Sample.hi_options
        (Resolved Sample.answer_200)]).
Proof.
  apply (retry_until_success Scenario.recovers_on_third Sample.primary_url
           Sample.hi_options 4 []
           [Sample.quota_429; Scenario.overloaded_503] Sample.answer_200).
  - cbn. lia.
  - reflexivity.
  - reflexivity.
  - reflexivity.
  - intros [| [| [| [| i]]]] r Hi; cbn in Hi; try discriminate;
      injection Hi as <-; reflexivity.
Defined.

(** X4.  For a POST with a valid prompt and a configured key: when the
    primary target answers 429 or 503 fewer than four times in a row, the
    message extracted from each of those answers converting to a string,
    and then answers with a success status, the handler's response is 200 with
    the payload of that last answer.  The run is exactly the retried calls
    with their sleeps (1000, 2000, 4000 ms), the successful call and the
    response: the fallback target is not called. *)
Theorem retried_success_answers_200 {num : Type} {NUM : JsNumber num}
    (req : Request num) (env_key : option string) (up : Upstream num)
    (k s : string) (rs : list (Response num)) (r_ok : Response num) :
  req_method req = "POST" ->
  body_prompt (req_body req) = Some (JStr s) ->
  s <> EmptyString ->
  env_key = Some k ->
  k <> EmptyString ->
  let primary := gemini_url MODEL_PRIMARY k in
  let options := gemini_options (Some (JStr s)) in
  (length rs < 4)%nat ->
  forallb (fun r => is_transient (res_status r)) rs = true ->
  forallb converts rs = true ->
  res_ok r_ok = true ->
  (forall i r,
      nth_error (rs ++ [r_ok]) i = Some r ->
      up (retried primary options 1 (firstn i rs)) primary options
      = Resolved r) ->
  run (handler req env_key) up
  = (Returned tt,
     (retried primary options 1 rs
        ++ [EvFetch primary options (Resolved r_ok);
            EvRespond 200 (payload_of r_ok)])%list).
Proof.
  intros Hm Hs Hne Hk Hkne primary options Hlen Hall Hconv Hok Hup.
  pose proof (accepted_request req env_key k s Hm Hs Hne Hk Hkne) as Hvalid.
  unfold run. rewrite (handler_calls up req env_key [] Hvalid). cbv zeta.
  rewrite Hs, Hk. cbn [key_text].
  unfold callGemini, bind, fetchWithRetry.
  fold primary. fold options.
  rewrite (loop_retried up primary options 4 rs r_ok);
    try assumption; try lia.
  cbn [app snd ret]. now rewrite <- app_assoc.
Qed.

Lemma retried_success_answers_200_witness :
  run (handler Sample.post_hi (Some "k")) Scenario.recovers_on_third
  = (Returned tt,
     [EvFetch Sample.primary_url Sample.hi_options (Resolved Sample.quota_429);
      EvSleep 1000;
      EvFetch Sample.primary_url Sample.hi_options
        (Resolved Scenario.overloaded_503);
      EvSleep 2000;
      EvFetch Sample.primary_url Sample.hi_options
        (Resolved Sample.answer_200);
      EvRespond 200 Sample.answer_body]).
Proof.
  apply (retried_success_answers_200 Sample.post_hi (Some "k")
           Scenario.recovers_on_third "k" "hi"
           [Sample.quota_429; Scenario.overloaded_503] Sample.answer_200);
    try reflexivity; try discriminate.
  - cbn. lia.
  - intros [| [| [| [| i]]]] r Hi; cbn in Hi; try discriminate;
      injection Hi as <-; reflexivity.
Defined.

(** X5.  Whatever the upstream does, what one call of the retry transport
    does is a row of answers with status 429 or 503, each followed at once
    by its back-off sleep, and then one last outbound call.  The sleep
    after the i-th answer (counting from zero) lasts [1000 * 2^i]
    milliseconds: 1000, 2000, 4000, ...  The calls number at most the
    budget.  The last call is missing only when the budget is below one,
    where nothing happens, and when the call is aborted after a sleep by the
    [TypeError] of an error message that cannot be built. *)
Theorem backoff_schedule {num : Type} {NUM : JsNumber num}
    (up : Upstream num) (url : string) (options : FetchOptions)
    (maxAttempts : Z) (tr : list (Event num)) :
  exists out rs tail,
    fetchWithRetry url options maxAttempts up tr
    = (out, (tr ++ retried url options 1 rs ++ tail)%list)
    /\ forallb (fun r => is_transient (res_status r)) rs = true
    /\ ((tail = []
         /\ (maxAttempts < 1 /\ rs = []
             \/ out = Thrown type_error /\ rs <> []))
        \/ exists x, tail = [EvFetch url options x])
    /\ (length rs + length tail <= Z.to_nat maxAttempts)%nat
    /\ (forall i w,
          nth_error (sleeps (retried url options 1 rs ++ tail)) i = Some w ->
          w = 1000 * 2 ^ Z.of_nat i).
Proof.
  destruct (fetchWithRetry_attempts up url options maxAttempts tr)
    as (out & ext & Heq & Hrun).
  destruct (attempts_alternate _ _ _ _ _ _ _ Hrun)
    as (rs & tail & Hext & Hall & Htail & Hlen).
  destruct (attempts_schedule _ _ _ _ _ _ _ Hrun) as (j & Hsl & _).
  exists out, rs, tail. rewrite <- Hext.
  split; [exact Heq |]. split; [exact Hall |]. split; [exact Htail |].
  split.
  - destruct (Z_lt_le_dec maxAttempts 1) as [Hlt | Hle].
    + inversion Hrun; subst; try lia.
      destruct rs; [| discriminate]. destruct tail; [| discriminate].
      cbn. lia.
    + specialize (Hlen Hle). lia.
  - intros i w Hi. rewrite Hsl in Hi.
    apply nth_error_map_seq in Hi. rewrite Hi. f_equal; f_equal; lia.
Qed.

(** X6.  The generic error ["Falha desconhecida no retry."] is what the
    transport throws when its budget is below one, and then no outbound
    call is made.  With a budget of at least one, that trailing throw is
    never reached.  Every failure of the transport is then one of three:
    the rejection of the last fetch it made; the failure thrown on the last
    response, which had no success status (the error carrying its status,
    message and payload, or the [TypeError] when that message cannot be
    built); or the [TypeError] that aborts a retry after its sleep, on an
    answer of status 429 or 503 whose message cannot be built. *)
Theorem unknown_failure_only_without_budget {num : Type} {NUM : JsNumber num}
    (up : Upstream num) (url : string) (options : FetchOptions)
    (maxAttempts : Z) (tr : list (Event num)) :
  (maxAttempts < 1 ->
   fetchWithRetry url options maxAttempts up tr
   = (Thrown (new_Error "Falha desconhecida no retry."), tr))
  /\ (1 <= maxAttempts ->
      forall e tr',
        fetchWithRetry url options maxAttempts up tr = (Thrown e, tr') ->
        exists pre,
          tr' = (tr ++ pre ++ [EvFetch url options (Rejected e)])%list
          \/ (exists r,
                tr' = (tr ++ pre ++ [EvFetch url options (Resolved r)])%list
                /\ res_ok r = false
                /\ e = match status_msg (res_status r)
                               (error_msg (payload_of r)) with
                       | Some text =>
                           mkExn "Error" text (Some (res_status r))
                             (Some (payload_of r))
                       | None => type_error
                       end)
          \/ (exists r w,
                tr' = (tr ++ pre
                          ++ [EvFetch url options (Resolved r); EvSleep w])%list
                /\ is_transient (res_status r) = true
                /\ status_msg (res_status r) (error_msg (payload_of r)) = None
                /\ e = type_error)).
Proof.
  split.
  - intros Hlt. unfold fetchWithRetry. rewrite Nat.add_1_r.
    now rewrite loop_exit by lia.
  - intros Hbudget e tr' Heq.
    destruct (fetchWithRetry_attempts up url options maxAttempts tr)
      as (out & ext & Heq' & Hrun).
    rewrite Heq in Heq'. injection Heq' as <- ->.
    destruct (attempts_thrown_cases _ _ _ _ _ _ _ Hbudget Hrun)
      as (pre & [-> | [(r & -> & Hr & ->) | (r & w & -> & Hr & Hc & ->)]]);
      exists pre.
    + now left.
    + right; left. now exists r.
    + right; right. exists r, w. repeat split; auto.
      unfold converts in Hc.
      now destruct (status_msg (res_status r) (error_msg (payload_of r))).
Qed.

Lemma unknown_failure_only_without_budget_witness :
  run (fetchWithRetry Sample.primary_url Sample.hi_options 0)
    Sample.always_200
  = (Thrown (new_Error "Falha desconhecida no retry."), []).
Proof.
  apply (proj1 (unknown_failure_only_without_budget Sample.always_200
                  Sample.primary_url Sample.hi_options 0 [])).
  lia.
Defined.

(** ** Every call to the provider *)

Section Calls.
Context {num : Type} {NUM : JsNumber num}.
Variable up : Upstream num.

(** The URLs of the two models differ, whatever the key. *)
Lemma model_urls_differ (key : string) :
  (gemini_url MODEL_PRIMARY key =? gemini_url MODEL_FALLBACK key)%string
  = false.
Proof.
  reflexivity.
Qed.

(** What [callGemini] adds to the trace, besides what is known of every
    run of the transport. *)
Lemma callGemini_shape key model prompt tr out tr' :
  callGemini key model prompt up tr = (out, tr') ->
  exists ext,
    tr' = (tr ++ ext)%list
    /\ (exists j : nat,
          (j <= 3)%nat
          /\ sleeps ext = map (fun i => 1000 * 2 ^ Z.of_nat i) (seq 0 j))
    /\ (forall u o x,
          In (EvFetch u o x) ext ->
          u = gemini_url model key /\ o = gemini_options prompt)
    /\ (forall e, out = Thrown e ->
          exists pre,
            ext = (pre ++ [EvFetch (gemini_url model key)
                             (gemini_options prompt) (Rejected e)])%list
            \/ (exists r,
                  ext = (pre ++ [EvFetch (gemini_url model key)
                                   (gemini_options prompt) (Resolved r)])%list
                  /\ res_ok r = false /\ e = failure_of r)
            \/ (exists r w,
                  ext = (pre ++ [EvFetch (gemini_url model key)
                                   (gemini_options prompt) (Resolved r);
                                 EvSleep w])%list
                  /\ is_transient (res_status r) = true
                  /\ converts r = false /\ e = type_error))
    /\ (forall e, out = Thrown e ->
          is_transient (exn_status_or_0 e) = true ->
          (exists pre,
             fetch_results (gemini_url model key) ext
             = (pre ++ [Rejected e])%list)
          \/ (length (fetch_results (gemini_url model key) ext) = 4%nat
              /\ forallb transient_answer
                   (fetch_results (gemini_url model key) ext) = true)).
Proof.
  destruct (fetchWithRetry_attempts up (gemini_url model key)
              (gemini_options prompt) 4 tr) as (out0 & ext & Heq & Hrun).
  unfold callGemini, bind. rewrite Heq. intros Hcall.
  assert (Hout : tr' = (tr ++ ext)%list
                 /\ forall e, out = Thrown e -> out0 = Thrown e).
  { destruct out0 as [[r d] | e0 |]; cbv beta delta [ret] in Hcall;
      injection Hcall as <- <-;
      (split; [reflexivity | intros e He; first [discriminate He | now injection He as ->]]). }
  destruct Hout as [-> Hthrown]. exists ext. split; [reflexivity |].
  split; [| split; [| split]].
  - destruct (attempts_schedule _ _ _ _ _ _ _ Hrun) as (j & Hsl & Hj).
    exists j. split; [cbn in Hj; lia |].
    rewrite Hsl. apply map_ext. intros i. f_equal; f_equal; lia.
  - intros u o x Hin. exact (attempts_same_call _ _ _ _ _ _ _ _ _ _ Hrun Hin).
  - intros e He. rewrite (Hthrown e He) in Hrun.
    apply (attempts_thrown_cases _ _ 4 1 None e ext); [lia | exact Hrun].
  - intros e He Htrans. rewrite (Hthrown e He) in Hrun.
    assert (Hbudget : 1 <= 4) by lia.
    exact (attempts_transient_failure (gemini_url model key)
             (gemini_options prompt) 4 1 None e ext Hbudget Hrun Htrans).
Qed.

End Calls.

(** ** Reading more off a trace *)

Section TraceReadings.
Context {num : Type}.

Lemma total_wait_app (t1 t2 : list (Event num)) :
  total_wait (t1 ++ t2) = total_wait t1 + total_wait t2.
Proof.
  unfold total_wait. rewrite sleeps_app.
  induction (sleeps t1) as [| w ws IH]; cbn; [reflexivity | lia].
Qed.

(** Three back-offs at most take seven seconds at most. *)
Lemma total_wait_of_schedule (ext : list (Event num)) (j : nat) :
  (j <= 3)%nat ->
  sleeps ext = map (fun i => 1000 * 2 ^ Z.of_nat i) (seq 0 j) ->
  0 <= total_wait ext <= 7000 /\ (length (sleeps ext) <= 3)%nat.
Proof.
  intros Hj Hsl. unfold total_wait. rewrite Hsl.
  destruct j as [| [| [| [| j]]]]; try lia; cbn; split; lia.
Qed.

Lemma last_fetch_app (t1 t2 : list (Event num)) :
  last_fetch (t1 ++ t2)
  = match last_fetch t2 with
    | Some x => Some x
    | None => last_fetch t1
    end.
Proof.
  induction t1 as [| ev t1 IH]; cbn.
  - now destruct (last_fetch t2).
  - rewrite IH. now destruct (last_fetch t2).
Qed.

Lemma fetch_results_app (url : string) (t1 t2 : list (Event num)) :
  fetch_results url (t1 ++ t2)
  = (fetch_results url t1 ++ fetch_results url t2)%list.
Proof.
  induction t1 as [| ev t1 IH]; [reflexivity |].
  destruct ev as [u o x | ms | code body]; cbn; rewrite IH; auto.
  now destruct (u =? url)%string.
Qed.

(** Calls that all go elsewhere leave no answer for this URL. *)
Lemma fetch_results_elsewhere (url other : string) (t : list (Event num)) :
  (other =? url)%string = false ->
  (forall u o x, In (EvFetch u o x) t -> u = other) ->
  fetch_results url t = [].
Proof.
  intros Hne. induction t as [| ev t IH]; intros Hall; [reflexivity |].
  destruct ev as [u o x | ms | code body]; cbn.
  - rewrite (Hall u o x (or_introl eq_refl)), Hne.
    apply IH. intros u' o' x' Hin. apply (Hall u' o' x'). now right.
  - apply IH. intros u' o' x' Hin. apply (Hall u' o' x'). now right.
  - apply IH. intros u' o' x' Hin. apply (Hall u' o' x'). now right.
Qed.

End TraceReadings.

(** ** The whole run of an accepted request *)

Section AcceptedRuns.
Context {num : Type} {NUM : JsNumber num}.
Variable up : Upstream num.

(** The run of a request that passes the guards is a primary call and a
    response, or a primary call, a fallback call and a response; each call
    has the shape of [callGemini_shape]. *)
Lemma handler_run_shape req env_key :
  rejected_early req env_key = false ->
  let key := key_text env_key in
  let prompt := body_prompt (req_body req) in
  exists out1 ext1,
    callGemini key MODEL_PRIMARY prompt up [] = (out1, ext1)
    /\ ((exists code body,
           handler req env_key up []
           = (Returned tt, (ext1 ++ [EvRespond code body])%list)
           /\ match out1 with
              | Returned d => code = 200 /\ body = d
              | Thrown e =>
                  is_transient (exn_status_or_0 e) = false
                  /\ code = 500 /\ body = error_message_body (exn_text e)
              | OutOfFuel => False
              end)
        \/ (exists e1 out2 ext2 code body,
              out1 = Thrown e1
              /\ is_transient (exn_status_or_0 e1) = true
              /\ callGemini key MODEL_FALLBACK prompt up ext1
                 = (out2, (ext1 ++ ext2)%list)
              /\ handler req env_key up []
                 = (Returned tt,
                    ((ext1 ++ ext2) ++ [EvRespond code body])%list)
              /\ match out2 with
                 | Returned d => code = 200 /\ body = d
                 | Thrown e =>
                     code = 500 /\ body = error_message_body (exn_text e)
                 | OutOfFuel => False
                 end)).
Proof.
  intros Hguard key prompt.
  destruct (handler_accepted up req env_key Hguard)
    as (out1 & ext1 & Heq1 & _ & _ & _ & Hcases).
  fold key in Heq1, Hcases. fold prompt in Heq1, Hcases.
  exists out1, ext1. split; [exact Heq1 |].
  destruct Hcases
    as [(pre & r & -> & _ & _ & Hrun)
       | [(e & -> & Htrans & Hrun)
         | (e & out2 & ext2 & -> & Htrans & Heq2 & _ & _ & _ & Hcases)]].
  - left. exists 200, (payload_of r). repeat split; assumption || reflexivity.
  - left. eexists; eexists. split; [exact Hrun |].
    repeat split; assumption || reflexivity.
  - right.
    destruct Hcases as [(pre & r & -> & _ & _ & Hrun) | (e2 & -> & Hrun)].
    + exists e, (Returned (payload_of r)), ext2, 200, (payload_of r).
      repeat split; assumption || reflexivity.
    + exists e, (Thrown e2), ext2. eexists; eexists.
      do 3 (split; [assumption || reflexivity |]).
      split; [exact Hrun |]. split; reflexivity.
Qed.

End AcceptedRuns.

(** X7.  Whatever the request and whatever the upstream does, one run of
    the handler sleeps at most six times and spends at most 14000 ms in
    back-off sleeps (7000 ms per target). *)
Theorem total_backoff_bounded {num : Type} {NUM : JsNumber num}
    (req : Request num) (env_key : option string) (up : Upstream num) :
  0 <= total_wait (snd (run (handler req env_key) up)) <= 14000
  /\ (length (sleeps (snd (run (handler req env_key) up))) <= 6)%nat.
Proof.
  unfold run. destruct (rejected_early req env_key) eqn:Hguard.
  - destruct (handler_rejected up req env_key [] Hguard)
      as (code & body & -> & _).
    cbn. split; lia.
  - destruct (handler_run_shape up req env_key Hguard)
      as (out1 & ext1 & Heq1 & Hcases).
    destruct (callGemini_shape up _ _ _ _ _ _ Heq1)
      as (ext1' & Hext1 & (j1 & Hj1 & Hsl1) & _).
    cbn [app] in Hext1. subst ext1'.
    destruct (total_wait_of_schedule ext1 j1 Hj1 Hsl1) as [Hw1 Hn1].
    destruct Hcases
      as [(code & body & -> & _)
         | (e1 & out2 & ext2 & code & body & _ & _ & Heq2 & -> & _)];
      cbn [snd].
    + rewrite total_wait_app, sleeps_app, length_app.
      cbn. split; lia.
    + destruct (callGemini_shape up _ _ _ _ _ _ Heq2)
        as (ext2' & Hext2 & (j2 & Hj2 & Hsl2) & _).
      apply app_inv_head in Hext2. subst ext2'.
      destruct (total_wait_of_schedule ext2 j2 Hj2 Hsl2) as [Hw2 Hn2].
      rewrite !total_wait_app, !sleeps_app, !length_app.
      cbn. split; lia.
Qed.

(** X8.  Every outbound call of a run is a POST to the URL of the primary
    or of the fallback model, with the key in the query string, the single
    header [Content-Type: application/json] and, as body, the serialized
    [{contents: [{role: "user", parts: [{text: prompt}]}]}] built from the
    prompt of the request: retries and the fallback call repeat the same
    request. *)
Theorem outbound_calls_repeat_one_request {num : Type} {NUM : JsNumber num}
    (req : Request num) (env_key : option string) (up : Upstream num)
    (u : string) (o : FetchOptions) (x : FetchResult num) :
  In (EvFetch u o x) (snd (run (handler req env_key) up)) ->
  (u = gemini_url MODEL_PRIMARY (key_text env_key)
   \/ u = gemini_url MODEL_FALLBACK (key_text env_key))
  /\ opt_method o = "POST"
  /\ opt_headers o = [("Content-Type", "application/json")]
  /\ opt_body o = JSON_stringify (gemini_body (body_prompt (req_body req))).
Proof.
  unfold run. destruct (rejected_early req env_key) eqn:Hguard.
  - destruct (handler_rejected up req env_key [] Hguard)
      as (code & body & -> & _).
    cbn. intros [Habs | []]. discriminate.
  - destruct (handler_run_shape up req env_key Hguard)
      as (out1 & ext1 & Heq1 & Hcases).
    destruct (callGemini_shape up _ _ _ _ _ _ Heq1)
      as (ext1' & Hext1 & _ & Hcall1 & _).
    cbn [app] in Hext1. subst ext1'.
    assert (Hlast : forall code body,
               In (EvFetch u o x) [EvRespond code body] -> False).
    { intros code body [Habs | []]. discriminate. }
    destruct Hcases
      as [(code & body & -> & _)
         | (e1 & out2 & ext2 & code & body & _ & _ & Heq2 & -> & _)];
      cbn [snd]; intros Hin.
    + apply in_app_or in Hin as [Hin | Hin]; [| now apply Hlast in Hin].
      destruct (Hcall1 u o x Hin) as [-> ->]. auto.
    + destruct (callGemini_shape up _ _ _ _ _ _ Heq2)
        as (ext2' & Hext2 & _ & Hcall2 & _).
      apply app_inv_head in Hext2. subst ext2'.
      apply in_app_or in Hin as [Hin | Hin]; [| now apply Hlast in Hin].
      apply in_app_or in Hin as [Hin | Hin].
      * destruct (Hcall1 u o x Hin) as [-> ->]. auto.
      * destruct (Hcall2 u o x Hin) as [-> ->]. auto.
Qed.

Lemma outbound_calls_repeat_one_request_witness :
  In (EvFetch Sample.fallback_url Sample.hi_options
        (Resolved Sample.answer_200))
     (snd (run (handler Sample.post_hi (Some "k")) Sample.limited_then_200))
  /\ opt_method Sample.hi_options = "POST"
  /\ opt_headers Sample.hi_options = [("Content-Type", "application/json")].
Proof.
  assert (Hin : In (EvFetch Sample.fallback_url Sample.hi_options
                      (Resolved Sample.answer_200))
                  (snd (run (handler Sample.post_hi (Some "k"))
                          Sample.limited_then_200))).
  { vm_compute. do 7 right. left. reflexivity. }
  split; [exact Hin |].
  destruct (outbound_calls_repeat_one_request Sample.post_hi (Some "k")
              Sample.limited_then_200 Sample.fallback_url Sample.hi_options
              (Resolved Sample.answer_200) Hin) as (_ & Hmethod & Hheaders & _).
  split; assumption.
Defined.

(** ** Which answer decides the response *)

Section LastAnswer.
Context {num : Type} {NUM : JsNumber num}.
Variable up : Upstream num.

(** A URL in the list of calls comes from a call in the trace. *)
Lemma in_fetch_urls (u : string) (t : list (Event num)) :
  In u (fetch_urls t) -> exists o x, In (EvFetch u o x) t.
Proof.
  induction t as [| ev t IH]; cbn; [contradiction |].
  destruct ev as [u' o x | ms | code body]; cbn.
  - intros [-> | Hin]; [now exists o, x; left |].
    destruct (IH Hin) as (o' & x' & Hin'). exists o', x'. now right.
  - intros Hin.
    destruct (IH Hin) as (o' & x' & Hin'). exists o', x'. now right.
  - intros Hin.
    destruct (IH Hin) as (o' & x' & Hin'). exists o', x'. now right.
Qed.

(** The trace of a run ends with the response, and the last call comes just
    before it. *)
Lemma last_fetch_before_response (t : list (Event num)) u o x code body :
  last_fetch ((t ++ [EvFetch u o x]) ++ [EvRespond code body]) = Some x.
Proof.
  rewrite !last_fetch_app. reflexivity.
Qed.

Lemma responses_before_response (t : list (Event num)) code body :
  responses t = [] ->
  responses (t ++ [EvRespond code body]) = [(code, body)].
Proof.
  intros H. now rewrite responses_app, H.
Qed.

(** How a call that failed ends, read on the handler's side. *)
Lemma callGemini_failed key model prompt tr e tr' code :
  callGemini key model prompt up tr = (Thrown e, tr') ->
  match last_fetch (tr' ++ [EvRespond code (error_message_body (exn_text e))])
  with
  | Some (Resolved r) =>
      res_ok r = false /\ exn_text e = failure_text r
  | Some (Rejected e') => e' = e
  | None => False
  end.
Proof.
  intros Hcall.
  destruct (callGemini_shape up _ _ _ _ _ _ Hcall)
    as (ext & -> & _ & _ & Hthrown & _).
  destruct (Hthrown e eq_refl)
    as (pre & [-> | [(r & -> & Hr & ->) | (r & w & -> & Hr & Hc & ->)]]).
  - rewrite app_assoc, last_fetch_before_response. reflexivity.
  - rewrite app_assoc, last_fetch_before_response.
    split; [assumption | apply exn_text_failure].
  - rewrite !last_fetch_app. cbn [last_fetch].
    split; [now apply transient_not_ok |].
    unfold failure_text, converts in *.
    now destruct (status_msg (res_status r) (error_msg (payload_of r))).
Qed.

End LastAnswer.

(** X9.  The fallback target is called only when the primary call gave up
    on a transient condition: either all four budgeted attempts on the
    primary target were made and each was answered 429 or 503, or the last
    fetch of the primary target was rejected with an error that itself
    carries the status 429 or 503. *)
Theorem fallback_only_after_primary_gave_up {num : Type} {NUM : JsNumber num}
    (req : Request num) (env_key : option string) (up : Upstream num) :
  let key := key_text env_key in
  let tr := snd (run (handler req env_key) up) in
  In (gemini_url MODEL_FALLBACK key) (fetch_urls tr) ->
  let answers := fetch_results (gemini_url MODEL_PRIMARY key) tr in
  (exists pre e,
     answers = (pre ++ [Rejected e])%list
     /\ is_transient (exn_status_or_0 e) = true)
  \/ (length answers = 4%nat /\ forallb transient_answer answers = true).
Proof.
  cbv zeta. unfold run. destruct (rejected_early req env_key) eqn:Hguard.
  - destruct (handler_rejected up req env_key [] Hguard)
      as (code & body & -> & _).
    cbn. contradiction.
  - destruct (handler_run_shape up req env_key Hguard)
      as (out1 & ext1 & Heq1 & Hcases).
    destruct (callGemini_shape up _ _ _ _ _ _ Heq1)
      as (ext1' & Hext1 & _ & Hcall1 & _ & Hgave_up).
    cbn [app] in Hext1. subst ext1'.
    destruct Hcases
      as [(code & body & -> & _)
         | (e1 & out2 & ext2 & code & body & -> & Htrans & Heq2 & -> & _)];
      cbn [snd].
    + rewrite fetch_urls_app. cbn [fetch_urls]. rewrite app_nil_r.
      intros Hin. apply in_fetch_urls in Hin as (o & x & Hin).
      destruct (Hcall1 _ o x Hin) as [Habs _].
      pose proof (model_urls_differ (key_text env_key)) as Hdiff.
      rewrite Habs, String.eqb_refl in Hdiff. discriminate.
    + intros _.
      destruct (callGemini_shape up _ _ _ _ _ _ Heq2)
        as (ext2' & Hext2 & _ & Hcall2 & _).
      apply app_inv_head in Hext2. subst ext2'.
      rewrite !fetch_results_app.
      rewrite (fetch_results_elsewhere
                 (gemini_url MODEL_PRIMARY (key_text env_key))
                 (gemini_url MODEL_FALLBACK (key_text env_key)) ext2).
      * cbn [fetch_results]. rewrite !app_nil_r.
        destruct (Hgave_up e1 eq_refl Htrans) as [(pre & Hpre) | Hall].
        -- left. exists pre, e1. auto.
        -- now right.
      * rewrite String.eqb_sym. apply model_urls_differ.
      * intros u o x Hin. now destruct (Hcall2 u o x Hin).
Qed.

Lemma fallback_only_after_primary_gave_up_witness :
  In (gemini_url MODEL_FALLBACK "k")
     (fetch_urls (snd (run (handler Sample.post_hi (Some "k"))
                         Sample.limited_then_200)))
  /\ length (fetch_results (gemini_url MODEL_PRIMARY "k")
               (snd (run (handler Sample.post_hi (Some "k"))
                       Sample.limited_then_200))) = 4%nat.
Proof.
  assert (Hin : In (gemini_url MODEL_FALLBACK "k")
                  (fetch_urls (snd (run (handler Sample.post_hi (Some "k"))
                                      Sample.limited_then_200)))).
  { vm_compute. do 4 right. left. reflexivity. }
  split; [exact Hin |].
  destruct (fallback_only_after_primary_gave_up Sample.post_hi (Some "k")
              Sample.limited_then_200 Hin) as [(pre & e & _ & _) | [Hlen _]].
  - reflexivity.
  - exact Hlen.
Defined.

(** X10.  Once a request has reached the provider, the response depends on
    the answer to the last outbound call alone: a success status gives 200
    with the payload of that answer; any other status gives 500 with the
    message ["<status>: <msg>"] built from that status and that answer's
    error body, or with the message of the [TypeError] when the extracted
    [msg] does not convert to a string; a rejected fetch gives 500 with the
    message of its error.  Earlier answers of the run, and the failure of
    the primary target when the fallback was tried, leave no mark on the
    response. *)
Theorem response_follows_last_answer {num : Type} {NUM : JsNumber num}
    (req : Request num) (env_key : option string) (up : Upstream num) :
  let tr := snd (run (handler req env_key) up) in
  fetch_urls tr <> [] ->
  match last_fetch tr with
  | Some (Resolved r) =>
      responses tr
      = [if res_ok r then (200, payload_of r)
         else (500,
               error_message_body
                 match status_msg (res_status r) (error_msg (payload_of r))
                 with
                 | Some text => text
                 | None => "Cannot convert object to primitive value"
                 end)]
  | Some (Rejected e) =>
      responses tr = [(500, error_message_body (exn_text e))]
  | None => False
  end.
Proof.
  cbv zeta. unfold run. destruct (rejected_early req env_key) eqn:Hguard.
  - destruct (handler_rejected up req env_key [] Hguard)
      as (code & body & -> & _).
    cbn. intros H. now contradiction H.
  - intros _.
    destruct (handler_accepted up req env_key Hguard)
      as (out1 & ext1 & Heq1 & Hresp1 & _ & _ & Hcases).
    destruct Hcases
      as [(pre & r & _ & Hr & -> & ->)
         | [(e & -> & _ & ->)
           | (e & out2 & ext2 & _ & _ & Heq2 & Hresp2 & _ & _ & Hcases)]];
      cbn [snd].
    + rewrite last_fetch_before_response, Hr.
      now apply responses_before_response.
    + pose proof (callGemini_failed up _ _ _ _ _ _ 500 Heq1) as Hlast.
      rewrite (responses_before_response _ _ _ Hresp1).
      destruct (last_fetch _) as [[r | e'] |]; [| now subst e' | assumption].
      destruct Hlast as [-> ->]. reflexivity.
    + assert (Hresp : responses (ext1 ++ ext2) = [])
        by now rewrite responses_app, Hresp1, Hresp2.
      destruct Hcases as [(pre & r & _ & Hr & -> & ->) | (e2 & -> & ->)];
        cbn [snd].
      * rewrite (app_assoc ext1), last_fetch_before_response, Hr.
        apply responses_before_response.
        now rewrite <- app_assoc.
      * pose proof (callGemini_failed up _ _ _ _ _ _ 500 Heq2) as Hlast.
        rewrite (responses_before_response _ _ _ Hresp).
        destruct (last_fetch _) as [[r | e'] |]; [| now subst e' | assumption].
        destruct Hlast as [-> ->]. reflexivity.
Qed.

Lemma response_follows_last_answer_witness :
  fetch_urls (snd (run (handler Sample.post_hi (Some "k"))
                     Sample.always_429)) <> []
  /\ last_fetch (snd (run (handler Sample.post_hi (Some "k"))
                        Sample.always_429))
     = Some (Resolved Sample.quota_429)
  /\ responses (snd (run (handler Sample.post_hi (Some "k"))
                       Sample.always_429))
     = [(500, error_message_body "429: quota")].
Proof.
  assert (Hcalled : fetch_urls (snd (run (handler Sample.post_hi (Some "k"))
                                       Sample.always_429)) <> [])
    by discriminate.
  split; [exact Hcalled |]. split; [reflexivity |].
  exact (response_follows_last_answer Sample.post_hi (Some "k")
           Sample.always_429 Hcalled).
Defined.

(** X11.  For a POST with a valid prompt and a configured key: when the
    fetch of the primary target is rejected (the provider cannot be reached)
    with an error that carries no status of 429 or 503, the transport does
    not retry and the handler does not call the fallback target.  The run
    is that one call followed by the response 500, whose message is the
    message of the error, or [String(e)] when that message is empty. *)
Theorem rejected_fetch_surfaces_at_once {num : Type} {NUM : JsNumber num}
    (req : Request num) (env_key : option string) (up : Upstream num)
    (k s : string) (e : Exn num) :
  req_method req = "POST" ->
  body_prompt (req_body req) = Some (JStr s) ->
  s <> EmptyString ->
  env_key = Some k ->
  k <> EmptyString ->
  up [] (gemini_url MODEL_PRIMARY k) (gemini_options (Some (JStr s)))
  = Rejected e ->
  is_transient (exn_status_or_0 e) = false ->
  run (handler req env_key) up
  = (Returned tt,
     [EvFetch (gemini_url MODEL_PRIMARY k) (gemini_options (Some (JStr s)))
        (Rejected e);
      EvRespond 500
        (error_message_body
           (if (exn_message e =? EmptyString)%string then String_exn e
            else exn_message e))]).
Proof.
  intros Hm Hs Hne Hk Hkne Hup Hperm.
  pose proof (accepted_request req env_key k s Hm Hs Hne Hk Hkne) as Hvalid.
  unfold run. rewrite (handler_calls up req env_key [] Hvalid). cbv zeta.
  rewrite Hs, Hk. cbn [key_text].
  unfold callGemini at 1, bind.
  rewrite fetchWithRetry_step by lia. rewrite Hup, Hperm. reflexivity.
Qed.

Lemma rejected_fetch_surfaces_at_once_witness :
  run (handler Sample.post_hi (Some "k")) Scenario.unreachable
  = (Returned tt,
     [EvFetch Sample.primary_url Sample.hi_options
        (Rejected Scenario.fetch_failed);
      EvRespond 500 (error_message_body "fetch failed")]).
Proof.
  apply (rejected_fetch_surfaces_at_once Sample.post_hi (Some "k")
           Scenario.unreachable "k" "hi" Scenario.fetch_failed);
    try reflexivity; discriminate.
Defined.

(** ** What the client reads after a permanent failure *)

Section PermanentFailure.
Context {num : Type} {NUM : JsNumber num}.
Variable up : Upstream num.

(** A first answer with a permanent failure status ends the run. *)
Lemma handler_permanent_failure req env_key (r : Response num) :
  rejected_early req env_key = false ->
  up [] (gemini_url MODEL_PRIMARY (key_text env_key))
    (gemini_options (body_prompt (req_body req)))
  = Resolved r ->
  res_ok r = false ->
  is_transient (res_status r) = false ->
  run (handler req env_key) up
  = (Returned tt,
     [EvFetch (gemini_url MODEL_PRIMARY (key_text env_key))
        (gemini_options (body_prompt (req_body req))) (Resolved r);
      EvRespond 500 (error_message_body (failure_text r))]).
Proof.
  intros Hvalid Hup Hok Hperm.
  unfold run. rewrite (handler_calls up req env_key [] Hvalid). cbv zeta.
  unfold callGemini at 1, bind.
  rewrite fetchWithRetry_step by lia. rewrite Hup. cbv zeta.
  rewrite Hok, Hperm. cbn [andb].
  rewrite (permanent_failure_status r Hperm), exn_text_failure. reflexivity.
Qed.

(** The value picked by the [||] chain on the usual shapes of an error
    body. *)
Lemma error_msg_nested (kvs ekvs : list (string * JSON num)) (m : string) :
  assoc "error" kvs = Some (JObj ekvs) ->
  assoc "message" ekvs = Some (JStr m) ->
  m <> EmptyString ->
  error_msg (JObj kvs) = Some (JStr m).
Proof.
  intros He Hm Hne. apply String.eqb_neq in Hne.
  unfold error_msg, js_or. cbn [opt_get]. rewrite He. cbn [opt_get].
  rewrite Hm. cbn [ToBoolean]. rewrite Hne. cbn [negb ToBoolean].
  now rewrite Hne.
Qed.

Lemma error_msg_flat (kvs : list (string * JSON num)) (m : string) :
  assoc "error" kvs = Some (JStr m) ->
  m <> EmptyString ->
  error_msg (JObj kvs) = Some (JStr m).
Proof.
  intros He Hne. apply String.eqb_neq in Hne.
  unfold error_msg, js_or. cbn [opt_get]. rewrite He. cbn [opt_get ToBoolean].
  now rewrite Hne.
Qed.

Lemma error_msg_absent (kvs : list (string * JSON num)) :
  assoc "error" kvs = None ->
  error_msg (JObj kvs) = Some (JStr (JSON_stringify (JObj kvs))).
Proof.
  intros He. unfold error_msg, js_or. cbn [opt_get]. rewrite He.
  reflexivity.
Qed.

End PermanentFailure.

(** X12.  For a request that passes the guards and whose first answer from
    the primary target has a permanent failure status (non-2xx, not 429 or
    503) with a JSON object as body, the client reads 500 with the message
    ["<status>: <text>"], where [text] is
    - the [message] of the [error] object, when [error] is an object whose
      [message] is a non-empty string;
    - [error] itself, when it is a non-empty string;
    - the serialized body, when the body has no [error] member. *)
Theorem client_message_by_error_shape {num : Type} {NUM : JsNumber num}
    (req : Request num) (env_key : option string) (up : Upstream num)
    (r : Response num) (kvs : list (string * JSON num)) :
  rejected_early req env_key = false ->
  up [] (gemini_url MODEL_PRIMARY (key_text env_key))
    (gemini_options (body_prompt (req_body req)))
  = Resolved r ->
  res_ok r = false ->
  is_transient (res_status r) = false ->
  res_body r = BodyJson (JObj kvs) ->
  (forall ekvs m,
      assoc "error" kvs = Some (JObj ekvs) ->
      assoc "message" ekvs = Some (JStr m) ->
      m <> EmptyString ->
      responses (snd (run (handler req env_key) up))
      = [(500, error_message_body (show_Z (res_status r) ++ ": " ++ m))])
  /\ (forall m,
        assoc "error" kvs = Some (JStr m) ->
        m <> EmptyString ->
        responses (snd (run (handler req env_key) up))
        = [(500, error_message_body (show_Z (res_status r) ++ ": " ++ m))])
  /\ (assoc "error" kvs = None ->
      responses (snd (run (handler req env_key) up))
      = [(500,
          error_message_body
            (show_Z (res_status r) ++ ": " ++ JSON_stringify (JObj kvs)))]).
Proof.
  intros Hvalid Hup Hok Hperm Hbody.
  rewrite (handler_permanent_failure up req env_key r Hvalid Hup Hok Hperm).
  unfold failure_text, payload_of. rewrite Hbody. cbn [snd responses].
  split; [| split].
  - intros ekvs m He Hm Hne. now rewrite (error_msg_nested kvs ekvs m).
  - intros m He Hne. now rewrite (error_msg_flat kvs m).
  - intros He. now rewrite (error_msg_absent kvs).
Qed.

Lemma client_message_by_error_shape_witness :
  responses (snd (run (handler Sample.post_hi (Some "k")) Sample.always_400))
  = [(500, error_message_body "400: bad")].
Proof.
  exact (proj1 (client_message_by_error_shape Sample.post_hi (Some "k")
                  Sample.always_400 Sample.bad_400
                  [("error", JObj [("message", JStr "bad")])]
                  eq_refl eq_refl eq_refl eq_refl eq_refl)
           [("message", JStr "bad")] "bad" eq_refl eq_refl
           ltac:(discriminate)).
Defined.

(** X13.  For a request that passes the guards and whose first answer from
    the primary target has a permanent failure status with a body that is
    not JSON (an HTML error page, an empty body), the parse failure is
    swallowed: the client reads 500 with the message ["<status>: {}"], the
    parser's error being dropped. *)
Theorem unparsable_error_body_reads_as_empty_object
    {num : Type} {NUM : JsNumber num}
    (req : Request num) (env_key : option string) (up : Upstream num)
    (r : Response num) (e : Exn num) :
  rejected_early req env_key = false ->
  up [] (gemini_url MODEL_PRIMARY (key_text env_key))
    (gemini_options (body_prompt (req_body req)))
  = Resolved r ->
  res_ok r = false ->
  is_transient (res_status r) = false ->
  res_body r = BodyInvalid e ->
  responses (snd (run (handler req env_key) up))
  = [(500, error_message_body (show_Z (res_status r) ++ ": {}"))].
Proof.
  intros Hvalid Hup Hok Hperm Hbody.
  rewrite (handler_permanent_failure up req env_key r Hvalid Hup Hok Hperm).
  unfold failure_text, payload_of. rewrite Hbody. reflexivity.
Qed.

Lemma unparsable_error_body_reads_as_empty_object_witness :
  responses (snd (run (handler Sample.post_hi (Some "k")) Scenario.always_502))
  = [(500, error_message_body "502: {}")].
Proof.
  exact (unparsable_error_body_reads_as_empty_object Sample.post_hi (Some "k")
           Scenario.always_502 Scenario.html_502 Scenario.not_json
           eq_refl eq_refl eq_refl eq_refl eq_refl).
Defined.

(** ** The single-call variant *)

Section SimpleRuns.
Context {num : Type} {NUM : JsNumber num}.
Variable up : Upstream num.

(** The single-call variant stops a request the way the handler does. *)
Lemma simple_handler_rejected req env_key :
  rejected_early req env_key = true ->
  exists code body,
    run (simple_handler req env_key) up
    = (Returned tt, [EvRespond code body]).
Proof.
  intros Hguard.
  rewrite (variants_agree_when_rejected up req env_key 4 MODEL_PRIMARY
             (Some MODEL_FALLBACK) Hguard).
  rewrite configured_handler_canonical. unfold run.
  destruct (handler_rejected up req env_key [] Hguard)
    as (code & body & -> & _).
  now exists code, body.
Qed.

End SimpleRuns.

(** X14.  Whatever the request and whatever the upstream does, the
    single-call variant returns normally with exactly one response written,
    never sleeps, and makes no outbound call for a request stopped by a
    guard and exactly one call, to the [gemini-2.0-flash] URL, for any
    other request. *)
Theorem simple_handler_answers_once {num : Type} {NUM : JsNumber num}
    (req : Request num) (env_key : option string) (up : Upstream num) :
  exists code body tr,
    run (simple_handler req env_key) up = (Returned tt, tr)
    /\ responses tr = [(code, body)]
    /\ sleeps tr = []
    /\ fetch_urls tr
       = if rejected_early req env_key then []
         else [gemini_url MODEL_FALLBACK (key_text env_key)].
Proof.
  destruct (rejected_early req env_key) eqn:Hguard.
  - destruct (simple_handler_rejected up req env_key Hguard)
      as (code & body & ->).
    exists code, body. eexists. repeat split.
  - rewrite (simple_handler_run up req env_key Hguard). cbv zeta.
    destruct (up [] _ _) as [[status [d | e']] | e]; cbn [res_body res_status];
      eexists; eexists; eexists; repeat split.
Qed.

(** X15.  In the single-call variant, an upstream answer with a JSON body
    is passed through as it is, whatever its status: the response carries
    the upstream status and the upstream body.  In particular a 429 or a
    503 is neither retried nor turned into a 500. *)
Theorem simple_handler_passes_answer_through {num : Type} {NUM : JsNumber num}
    (req : Request num) (env_key : option string) (up : Upstream num)
    (r : Response num) (d : JSON num) :
  rejected_early req env_key = false ->
  let url := gemini_url MODEL_FALLBACK (key_text env_key) in
  let options := gemini_options (body_prompt (req_body req)) in
  up [] url options = Resolved r ->
  res_body r = BodyJson d ->
  run (simple_handler req env_key) up
  = (Returned tt, [EvFetch url options (Resolved r); EvRespond (res_status r) d]).
Proof.
  intros Hguard url options Hup Hbody.
  rewrite (simple_handler_run up req env_key Hguard). cbv zeta.
  fold url. fold options. now rewrite Hup, Hbody.
Qed.

Lemma simple_handler_passes_answer_through_witness :
  run (simple_handler Sample.post_hi (Some "k")) Sample.always_429
  = (Returned tt,
     [EvFetch Sample.fallback_url Sample.hi_options (Resolved Sample.quota_429);
      EvRespond 429 Sample.quota_body]).
Proof.
  exact (simple_handler_passes_answer_through Sample.post_hi (Some "k")
           Sample.always_429 Sample.quota_429 Sample.quota_body
           eq_refl eq_refl eq_refl).
Defined.

(** X16.  In the single-call variant, a fetch that is rejected and an answer
    whose body is not JSON (whatever its status, 200 included) both end in
    the response 500 with [{error: String(e)}], [e] being the error of the
    fetch or of the parser; one outbound call was made. *)
Theorem simple_handler_reports_thrown_error {num : Type} {NUM : JsNumber num}
    (req : Request num) (env_key : option string) (up : Upstream num)
    (e : Exn num) :
  rejected_early req env_key = false ->
  let url := gemini_url MODEL_FALLBACK (key_text env_key) in
  let options := gemini_options (body_prompt (req_body req)) in
  (up [] url options = Rejected e
   \/ exists r, up [] url options = Resolved r /\ res_body r = BodyInvalid e) ->
  responses (snd (run (simple_handler req env_key) up))
  = [(500, error_body (String_exn e))]
  /\ fetch_urls (snd (run (simple_handler req env_key) up)) = [url].
Proof.
  intros Hguard url options Hup.
  rewrite (simple_handler_run up req env_key Hguard). cbv zeta.
  fold url. fold options.
  destruct Hup as [-> | (r & -> & ->)]; split; reflexivity.
Qed.

Lemma simple_handler_reports_thrown_error_witness :
  responses (snd (run (simple_handler Sample.post_hi (Some "k"))
                    Scenario.always_502))
  = [(500, error_body "SyntaxError: Unexpected token < in JSON")]
  /\ fetch_urls (snd (run (simple_handler Sample.post_hi (Some "k"))
                        Scenario.always_502))
     = [Sample.fallback_url].
Proof.
  apply (simple_handler_reports_thrown_error Sample.post_hi (Some "k")
           Scenario.always_502 Scenario.not_json eq_refl).
  right. exists Scenario.html_502. split; reflexivity.
Defined.

(** ** A primary target that stays unavailable *)

Section Exhaustion.
Context {num : Type} {NUM : JsNumber num}.
Variable up : Upstream num.
Variable url : string.
Variable options : FetchOptions.
Variable maxAttempts : Z.

(** A row of transient answers that fills the budget, the error messages
    of the retried ones being built without trouble, ends in the failure
    thrown on the last of them. *)
Lemma loop_exhausted (rs : list (Response num)) (r_last : Response num) :
  forall (a : Z) (lastErr : option (Exn num)) (tr : list (Event num))
         (fuel : nat),
    a + Z.of_nat (length rs) = maxAttempts ->
    (Z.to_nat (maxAttempts + 1 - a) < fuel)%nat ->
    forallb (fun r => is_transient (res_status r)) rs = true ->
    forallb converts rs = true ->
    is_transient (res_status r_last) = true ->
    (forall i r,
        nth_error (rs ++ [r_last]) i = Some r ->
        up (tr ++ retried url options a (firstn i rs))%list url options
        = Resolved r) ->
    fetchWithRetry_loop fuel url options maxAttempts a lastErr up tr
    = (Thrown (failure_of r_last),
       (tr ++ retried url options a rs
           ++ [EvFetch url options (Resolved r_last)])%list).
Proof.
  induction rs as [| r rs IH];
    intros a lastErr tr fuel Hfit Hfuel Hall Hconv Hlast Hup;
    (destruct fuel as [| fuel]; [lia |]).
  - cbn in Hfit. rewrite loop_step by lia.
    specialize (Hup 0%nat r_last eq_refl). cbn in Hup.
    rewrite app_nil_r in Hup. rewrite Hup. cbv zeta.
    rewrite (transient_not_ok r_last Hlast), Hlast.
    replace (a <? maxAttempts) with false by (symmetry; apply Z.ltb_ge; lia).
    reflexivity.
  - cbn [length] in Hfit. cbn [forallb] in Hall, Hconv.
    apply andb_true_iff in Hall as [Hr Hall].
    apply andb_true_iff in Hconv as [Hc Hconv].
    rewrite loop_step by lia.
    pose proof (Hup 0%nat r eq_refl) as Hup0. cbn in Hup0.
    rewrite app_nil_r in Hup0. rewrite Hup0. cbv zeta.
    rewrite (transient_not_ok r Hr), Hr.
    replace (a <? maxAttempts) with true by (symmetry; apply Z.ltb_lt; lia).
    cbn [andb]. unfold converts in Hc.
    destruct (status_msg (res_status r) (error_msg (payload_of r)))
      as [text |]; [| discriminate].
    rewrite (IH (a + 1)); try assumption; try lia.
    + cbn [retried]. f_equal. rewrite <- !app_assoc. reflexivity.
    + intros i r' Hi.
      specialize (Hup (S i) r' Hi). cbn [firstn retried] in Hup.
      rewrite <- Hup. f_equal. rewrite <- !app_assoc. reflexivity.
Qed.

(** Only the last call of a run can have been answered otherwise than by
    429 or 503. *)
Lemma attempts_retried_answers a lastErr out ext :
  attempts (num := num) url options maxAttempts a lastErr out ext ->
  forallb transient_answer (removelast (fetch_results url ext)) = true.
Proof.
  induction 1 as [a lastErr Hgt | a lastErr e Hle | a lastErr r Hle Hok
                 | a lastErr r Hle Hok Hno
                 | a lastErr r text out ext Hle Hok Hretry Hmsg Hrun IH
                 | a lastErr r Hle Hok Hretry Hmsg];
    cbn [fetch_results]; rewrite ?String.eqb_refl; try reflexivity.
  apply andb_true_iff in Hretry as [Hr _].
  destruct (fetch_results url ext) as [| x answers] eqn:Hrest; [reflexivity |].
  change (removelast (Resolved r :: x :: answers))
    with (Resolved r :: removelast (x :: answers)).
  cbn [forallb transient_answer]. now rewrite Hr, IH.
Qed.

End Exhaustion.

(** X17.  For a POST with a valid prompt and a configured key: when the
    four budgeted attempts on the primary target are answered by any mix of
    429 and 503, the message extracted from each of the four answers
    converting to a string, the handler goes on with a call of the retry
    transport on
    the fallback target, with the same options and a budget of four, and
    the outcome of that call alone decides the response: 200 with its
    payload, or 500 with the message of its failure. *)
Theorem fallback_after_transient_exhaustion {num : Type} {NUM : JsNumber num}
    (req : Request num) (env_key : option string) (up : Upstream num)
    (k s : string) (rs : list (Response num)) (r4 : Response num) :
  req_method req = "POST" ->
  body_prompt (req_body req) = Some (JStr s) ->
  s <> EmptyString ->
  env_key = Some k ->
  k <> EmptyString ->
  let primary := gemini_url MODEL_PRIMARY k in
  let fallback := gemini_url MODEL_FALLBACK k in
  let options := gemini_options (Some (JStr s)) in
  length rs = 3%nat ->
  forallb (fun r => is_transient (res_status r)) rs = true ->
  is_transient (res_status r4) = true ->
  forallb converts (rs ++ [r4]) = true ->
  (forall i r,
      nth_error (rs ++ [r4]) i = Some r ->
      up (retried primary options 1 (firstn i rs)) primary options
      = Resolved r) ->
  let tr4 := (retried primary options 1 rs
                ++ [EvFetch primary options (Resolved r4)])%list in
  run (handler req env_key) up
  = match fetchWithRetry fallback options 4 up tr4 with
    | (Returned rd, tr) => (Returned tt, (tr ++ [EvRespond 200 (snd rd)])%list)
    | (Thrown e, tr) =>
        (Returned tt,
         (tr ++ [EvRespond 500 (error_message_body (exn_text e))])%list)
    | (OutOfFuel, tr) => (OutOfFuel, tr)
    end.
Proof.
  intros Hm Hs Hne Hk Hkne primary fallback options Hlen Hall Hlast Hconv
    Hup tr4.
  rewrite forallb_app in Hconv. apply andb_true_iff in Hconv as [Hconv Hc4].
  cbn [forallb] in Hc4. rewrite andb_true_r in Hc4.
  pose proof (accepted_request req env_key k s Hm Hs Hne Hk Hkne) as Hvalid.
  unfold run. rewrite (handler_calls up req env_key [] Hvalid). cbv zeta.
  rewrite Hs, Hk. cbn [key_text].
  unfold callGemini, bind. fold primary. fold fallback. fold options.
  unfold fetchWithRetry at 1.
  rewrite (loop_exhausted up primary options 4 rs r4);
    try assumption; try (rewrite ?Hlen; cbn; lia).
  cbn [app]. fold tr4.
  rewrite exn_status_failure, Hc4, Hlast.
  destruct (fetchWithRetry fallback options 4 up tr4) as [[[rf d] | e |] tr];
    reflexivity.
Qed.

Lemma fallback_after_transient_exhaustion_witness :
  run (handler Sample.post_hi (Some "k")) Scenario.mixed_then_200
  = (Returned tt,
     [EvFetch Sample.primary_url Sample.hi_options (Resolved Sample.quota_429);
      EvSleep 1000;
      EvFetch Sample.primary_url Sample.hi_options
        (Resolved Scenario.overloaded_503);
      EvSleep 2000;
      EvFetch Sample.primary_url Sample.hi_options
        (Resolved Scenario.overloaded_503);
      EvSleep 4000;
      EvFetch Sample.primary_url Sample.hi_options (Resolved Sample.quota_429);
      EvFetch Sample.fallback_url Sample.hi_options
        (Resolved Sample.answer_200);
      EvRespond 200 Sample.answer_body]).
Proof.
  etransitivity.
  - apply (fallback_after_transient_exhaustion Sample.post_hi (Some "k")
             Scenario.mixed_then_200 "k" "hi"
             [Sample.quota_429; Scenario.overloaded_503;
              Scenario.overloaded_503]
             Sample.quota_429);
      try reflexivity; try discriminate.
    intros [| [| [| [| [| i]]]]] r Hi; cbn in Hi; try discriminate;
      injection Hi as <-; reflexivity.
  - reflexivity.
Defined.

(** X18.  The handler responds last: in every run the response is the final
    event of the trace, so every outbound call and every sleep of the run
    comes before it and nothing is done after it. *)
Theorem response_is_the_last_event {num : Type} {NUM : JsNumber num}
    (req : Request num) (env_key : option string) (up : Upstream num) :
  exists before code body,
    snd (run (handler req env_key) up)
    = (before ++ [EvRespond code body])%list
    /\ responses before = [].
Proof.
  unfold run. destruct (rejected_early req env_key) eqn:Hguard.
  - destruct (handler_rejected up req env_key [] Hguard)
      as (code & body & -> & _).
    exists [], code, body. split; reflexivity.
  - destruct (handler_accepted up req env_key Hguard)
      as (out1 & ext1 & _ & Hresp1 & _ & _ & Hcases).
    destruct Hcases
      as [(pre & r & _ & _ & _ & ->)
         | [(e & _ & _ & ->)
           | (e & out2 & ext2 & _ & _ & _ & Hresp2 & _ & _ & Hcases)]].
    + now exists ext1, 200, (payload_of r).
    + now exists ext1, 500, (error_message_body (exn_text e)).
    + assert (Hresp : responses (ext1 ++ ext2) = [])
        by now rewrite responses_app, Hresp1, Hresp2.
      destruct Hcases as [(pre & r & _ & _ & _ & ->) | (e2 & _ & ->)].
      * now exists (ext1 ++ ext2)%list, 200, (payload_of r).
      * now exists (ext1 ++ ext2)%list, 500,
          (error_message_body (exn_text e2)).
Qed.

(** X19.  The retry transport retries on 429 and 503 only: in any call of
    it, every outbound call but the last was answered with status 429 or
    503.  A success, any other status and a rejected fetch can only be the
    answer to the last call made. *)
Theorem only_transient_answers_are_retried {num : Type} {NUM : JsNumber num}
    (up : Upstream num) (url : string) (options : FetchOptions)
    (maxAttempts : Z) (tr : list (Event num)) :
  exists out ext,
    fetchWithRetry url options maxAttempts up tr = (out, (tr ++ ext)%list)
    /\ forall earlier last,
         fetch_results url ext = (earlier ++ [last])%list ->
         forallb transient_answer earlier = true.
Proof.
  destruct (fetchWithRetry_attempts up url options maxAttempts tr)
    as (out & ext & Heq & Hrun).
  exists out, ext. split; [exact Heq |].
  intros earlier last Hsplit.
  pose proof (attempts_retried_answers url options maxAttempts _ _ _ _ Hrun)
    as Hall.
  now rewrite Hsplit, removelast_last in Hall.
Qed.

(** ** An error that cannot be printed *)

Section Unprintable.
Context {num : Type} {NUM : JsNumber num}.

(** The message extracted from a body whose [error] is an object with a
    member named [toString], and without a truthy [message], is that
    object, and it does not convert to a string. *)
Lemma shadowed_error_does_not_convert (status : Z)
    (kvs ekvs : list (string * JSON num)) (v : JSON num) :
  assoc "error" kvs = Some (JObj ekvs) ->
  ToBoolean (assoc "message" ekvs) = false ->
  assoc "toString" ekvs = Some v ->
  status_msg status (error_msg (JObj kvs)) = None.
Proof.
  intros He Hm Ht.
  unfold status_msg, error_msg, js_or. cbn [opt_get]. rewrite He.
  cbn [opt_get]. rewrite Hm. cbn [ToBoolean ToString_val ToString].
  now rewrite Ht.
Qed.

End Unprintable.

(** X20.  For a request that passes the guards and whose first answer from
    the primary target has a non-2xx status and, as body, an object whose
    [error] member is an object with a member named [toString] and without
    a truthy [message]: the template literal that builds the error throws a
    [TypeError].  The call ends there, after the back-off sleep when the
    status is 429 or 503 and at once otherwise; no further attempt and no
    fallback call are made, and the client reads 500 with the message of
    the [TypeError]. *)
Theorem unprintable_error_aborts_the_call {num : Type} {NUM : JsNumber num}
    (req : Request num) (env_key : option string) (up : Upstream num)
    (r : Response num) (kvs ekvs : list (string * JSON num)) (v : JSON num) :
  rejected_early req env_key = false ->
  let primary := gemini_url MODEL_PRIMARY (key_text env_key) in
  let options := gemini_options (body_prompt (req_body req)) in
  up [] primary options = Resolved r ->
  res_ok r = false ->
  res_body r = BodyJson (JObj kvs) ->
  assoc "error" kvs = Some (JObj ekvs) ->
  ToBoolean (assoc "message" ekvs) = false ->
  assoc "toString" ekvs = Some v ->
  run (handler req env_key) up
  = (Returned tt,
     (EvFetch primary options (Resolved r)
      :: (if is_transient (res_status r) then [EvSleep 1000] else [])
      ++ [EvRespond 500
            (error_message_body
               "Cannot convert object to primitive value")])%list).
Proof.
  intros Hvalid primary options Hup Hok Hbody He Hm Ht.
  assert (Hmsg : status_msg (res_status r) (error_msg (payload_of r)) = None).
  { unfold payload_of. rewrite Hbody.
    exact (shadowed_error_does_not_convert _ kvs ekvs v He Hm Ht). }
  unfold primary, options in *.
  unfold run. rewrite (handler_calls up req env_key [] Hvalid). cbv zeta.
  unfold callGemini at 1, bind.
  rewrite fetchWithRetry_step by lia. rewrite Hup. cbv zeta.
  rewrite Hok. unfold failure_of. rewrite Hmsg.
  destruct (is_transient (res_status r)); reflexivity.
Qed.

Lemma unprintable_error_aborts_the_call_witness :
  run (handler Sample.post_hi (Some "k")) Sample.always_shadowing_429
  = (Returned tt,
     [EvFetch Sample.primary_url Sample.hi_options
        (Resolved Sample.shadowing_429);
      EvSleep 1000;
      EvRespond 500
        (error_message_body "Cannot convert object to primitive value")]).
Proof.
  exact (unprintable_error_aborts_the_call Sample.post_hi (Some "k")
           Sample.always_shadowing_429 Sample.shadowing_429
           [("error", JObj [("toString", JNull)])] [("toString", JNull)] JNull
           eq_refl eq_refl eq_refl eq_refl eq_refl eq_refl eq_refl).
Defined.
